(** * Monkey: crawl traversal, URL canonicalisation, metadata extraction,
      markdown rendering and screenshot stitching

    A shallow embedding of the algorithmic core of the [monkey] package
    ([crawler.py], [scrape.py], [screenshot_manager.py]) together with the
    properties its specification states about it.

    Conventions.
    - A Python [str] is a Rocq [string]; a character is a code point in
      [0, 255] (Latin-1 text).
    - A Python exception is the [Raise] outcome of the [exc] monad.
    - A Python [dict] with string keys is a [gmap string _], a [set] of
      strings a [gset string].
    - Calls into the browser driver and BeautifulSoup are inputs of the
      model: records of query results, never computed here.
    - Calls into [urllib.parse] are modelled after CPython 3.11, and
      [Image.open] after Pillow. *)

From Stdlib Require Import ZArith String Ascii Bool List Lia.
From stdpp Require Import gmap strings list sorting pretty.

Import ListNotations.
Local Open Scope string_scope.
Local Open Scope list_scope.
Local Open Scope Z_scope.

(** ** Exceptions *)

Inductive exc (A : Type) : Type :=
  | Ret (a : A)
  | Raise (msg : string).
Arguments Ret {A} a.
Arguments Raise {A} msg.

#[global] Instance exc_ret : MRet exc := fun A a => Ret a.
#[global] Instance exc_bind : MBind exc := fun A B k m =>
  match m with
  | Ret a => k a
  | Raise msg => Raise msg
  end.

(** Library behaviour that is not computed by the model: the IPv6 literal
    validation of [urllib.parse] and the regular-expression engine. *)
Class PyLib := {
  (** [_check_bracketed_netloc(netloc)]: raises [ValueError] on a bad
      bracketed host *)
  check_bracketed_netloc : string -> exc unit;
  (** [re.compile(pattern)]: raises [re.error] on a malformed pattern *)
  re_compile : string -> exc unit;
  (** [re.search(pattern, s) is not None] *)
  re_search : string -> string -> bool
}.

(** ** Python string operations *)

Module PyStr.

Definition chr (n : N) : ascii := ascii_of_N n.
Definition ord (c : ascii) : N := N_of_ascii c.

(** [s.startswith(p)] and [s.startswith((p1, ..., pn))] *)
Definition startswith (s p : string) : bool := String.prefix p s.
Definition startswith_any (s : string) (ps : list string) : bool :=
  existsb (startswith s) ps.

(** [c in s] for a single character *)
Fixpoint contains (c : ascii) (s : string) : bool :=
  match s with
  | EmptyString => false
  | String x s' => Ascii.eqb x c || contains c s'
  end.

(** The longest prefix of [s] without a character satisfying [p], and the
    rest (empty, or starting with the first such character). *)
Fixpoint break_at (p : ascii -> bool) (s : string) : string * string :=
  match s with
  | EmptyString => (EmptyString, EmptyString)
  | String x s' =>
      if p x then (EmptyString, s)
      else let (a, b) := break_at p s' in (String x a, b)
  end.

(** [s.split(c, 1)] as a pair, for [c in s]; [(s, "")] otherwise. *)
Definition split1 (c : ascii) (s : string) : string * string :=
  let (a, b) := break_at (Ascii.eqb c) s in
  match b with
  | EmptyString => (a, EmptyString)
  | String _ b' => (a, b')
  end.

(** [s.split(c)] *)
Fixpoint split (c : ascii) (s : string) : list string :=
  match s with
  | EmptyString => [EmptyString]
  | String x s' =>
      if Ascii.eqb x c then EmptyString :: split c s'
      else match split c s' with
           | [] => [String x EmptyString]
           | w :: ws => String x w :: ws
           end
  end.

(** [(s[:i], s[i:])] for [i = s.rfind(c)], and [("", s)] when [c] does
    not occur. *)
Fixpoint rbreak (c : ascii) (s : string) : string * string :=
  match s with
  | EmptyString => (EmptyString, EmptyString)
  | String x s' =>
      if contains c s' then let (a, b) := rbreak c s' in (String x a, b)
      else (EmptyString, s)
  end.

(** The characters of [s] that satisfy [p], in order *)
Fixpoint keep (p : ascii -> bool) (s : string) : string :=
  match s with
  | EmptyString => EmptyString
  | String x s' => if p x then String x (keep p s') else keep p s'
  end.

(** [all(p(c) for c in s)] *)
Fixpoint all (p : ascii -> bool) (s : string) : bool :=
  match s with
  | EmptyString => true
  | String x s' => p x && all p s'
  end.

(** [s.lstrip(chars)], [s.rstrip(chars)], [s.strip(chars)] with the
    character set given as a predicate *)
Fixpoint lstrip (p : ascii -> bool) (s : string) : string :=
  match s with
  | EmptyString => EmptyString
  | String x s' => if p x then lstrip p s' else s
  end.

Fixpoint rstrip (p : ascii -> bool) (s : string) : string :=
  match s with
  | EmptyString => EmptyString
  | String x s' =>
      match rstrip p s' with
      | EmptyString => if p x then EmptyString else String x EmptyString
      | r => String x r
      end
  end.

Definition strip (p : ascii -> bool) (s : string) : string :=
  rstrip p (lstrip p s).

Definition in_range (lo hi : N) (c : ascii) : bool :=
  (lo <=? ord c)%N && (ord c <=? hi)%N.

(** [c.isspace()] on code points below 256 *)
Definition isspace (c : ascii) : bool :=
  in_range 9 13 c || in_range 28 32 c || (ord c =? 133)%N || (ord c =? 160)%N.

Definition is_upper (c : ascii) : bool := in_range 65 90 c.
Definition is_lower (c : ascii) : bool := in_range 97 122 c.
Definition is_digit (c : ascii) : bool := in_range 48 57 c.
(** [c.isascii() and c.isalpha()] *)
Definition is_ascii_alpha (c : ascii) : bool := is_upper c || is_lower c.

Definition lower_char (c : ascii) : ascii :=
  if is_upper c then chr (ord c + 32) else c.

(** [s.lower()], used by the model on ASCII text only *)
Fixpoint lower (s : string) : string :=
  match s with
  | EmptyString => EmptyString
  | String x s' => String (lower_char x) (lower s')
  end.

(** [sep.join(l)] *)
Definition join (sep : string) (l : list string) : string :=
  String.concat sep l.

(** Truthiness of a [str] *)
Definition truthy (s : string) : bool :=
  match s with EmptyString => false | _ => true end.

End PyStr.

(** ** urllib.parse *)

Module Urllib.

Import PyStr.

Definition uses_relative : list string :=
  [""; "ftp"; "http"; "gopher"; "nntp"; "imap"; "wais"; "file"; "https";
   "shttp"; "mms"; "prospero"; "rtsp"; "rtspu"; "sftp"; "svn"; "svn+ssh";
   "ws"; "wss"].

Definition uses_netloc : list string :=
  [""; "ftp"; "http"; "gopher"; "nntp"; "telnet"; "imap"; "wais"; "file";
   "mms"; "https"; "shttp"; "snews"; "prospero"; "rtsp"; "rtspu"; "rsync";
   "svn"; "svn+ssh"; "sftp"; "nfs"; "git"; "git+ssh"; "ws"; "wss"].

Definition uses_params : list string :=
  [""; "ftp"; "hdl"; "prospero"; "http"; "imap"; "https"; "shttp"; "rtsp";
   "rtspu"; "sip"; "sips"; "mms"; "sftp"; "tel"].

Definition mem (s : string) (l : list string) : bool :=
  existsb (String.eqb s) l.

(** [c in scheme_chars] *)
Definition scheme_char (c : ascii) : bool :=
  is_lower c || is_upper c || is_digit c
  || Ascii.eqb c "+" || Ascii.eqb c "-" || Ascii.eqb c ".".

(** [c in _WHATWG_C0_CONTROL_OR_SPACE] *)
Definition c0_or_space (c : ascii) : bool := (ord c <=? 32)%N.

(** [c in _UNSAFE_URL_BYTES_TO_REMOVE] *)
Definition unsafe_byte (c : ascii) : bool :=
  (ord c =? 9)%N || (ord c =? 13)%N || (ord c =? 10)%N.

Definition remove_unsafe (s : string) : string :=
  keep (fun c => negb (unsafe_byte c)) s.

Definition netloc_delim (c : ascii) : bool :=
  Ascii.eqb c "/" || Ascii.eqb c "?" || Ascii.eqb c "#".

Record SplitResult := {
  sr_scheme : string;
  sr_netloc : string;
  sr_path : string;
  sr_query : string;
  sr_fragment : string
}.

Record ParseResult := {
  scheme : string;
  netloc : string;
  path : string;
  params : string;
  query : string;
  fragment : string
}.

(** The scheme prefix of [urlsplit]: [url[:i].lower(), url[i+1:]] when
    [url] starts with a letter and [url[:i]] consists of scheme
    characters, for [i = url.find(':') > 0]. *)
Definition split_scheme (url default : string) : string * string :=
  let (pre, rest) := break_at (Ascii.eqb ":") url in
  match pre, rest with
  | String c _, String _ rest' =>
      if is_ascii_alpha c && all scheme_char pre
      then (lower pre, rest')
      else (default, url)
  | _, _ => (default, url)
  end.

(** [_splitnetloc(url, 2)] for [url[:2] == '//'] *)
Definition _splitnetloc2 (url : string) : option (string * string) :=
  match url with
  | String "/" (String "/" rest) => Some (break_at netloc_delim rest)
  | _ => None
  end.

Section WithLib.
Context `{PyLib}.

Definition check_brackets (netloc : string) : exc unit :=
  let lb := contains "[" netloc in
  let rb := contains "]" netloc in
  if (lb && negb rb) || (rb && negb lb) then Raise "Invalid IPv6 URL"
  else if lb && rb then check_bracketed_netloc netloc
  else Ret tt.

(** [urlsplit(url, scheme)] with [allow_fragments=True].
    [_checknetloc] only raises on characters beyond Latin-1 and is
    left out. *)
Definition urlsplit (url default : string) : exc SplitResult :=
  let url := lstrip c0_or_space url in
  let default := strip c0_or_space default in
  let url := remove_unsafe url in
  let default := remove_unsafe default in
  let (scheme, url) := split_scheme url default in
  nu ← match _splitnetloc2 url with
         | Some (netloc, rest) =>
             _ ← check_brackets netloc; Ret (netloc, rest)
         | None => Ret (EmptyString, url)
         end;
  let (url, fragment) := split1 "#" (snd nu) in
  let (url, query) := split1 "?" url in
  Ret {| sr_scheme := scheme; sr_netloc := fst nu; sr_path := url;
         sr_query := query; sr_fragment := fragment |}.

Definition _splitparams (url : string) : string * string :=
  let (a, b) := rbreak "/" url in
  let (b1, b2) := break_at (Ascii.eqb ";") b in
  match b2 with
  | EmptyString => (url, EmptyString)
  | String _ b2' => (a +:+ b1, b2')
  end.

(** [urlparse(url, scheme)] *)
Definition urlparse_with (url default : string) : exc ParseResult :=
  r ← urlsplit url default;
  let (url, params) :=
    if mem (sr_scheme r) uses_params && contains ";" (sr_path r)
    then _splitparams (sr_path r)
    else (sr_path r, EmptyString) in
  Ret {| scheme := sr_scheme r; netloc := sr_netloc r; path := url;
         params := params; query := sr_query r;
         fragment := sr_fragment r |}.

(** [urlparse(url)] *)
Definition urlparse (url : string) : exc ParseResult :=
  urlparse_with url "".

Definition urlunsplit (scheme netloc url query fragment : string)
  : string :=
  let url :=
    if truthy netloc
       || (truthy scheme && mem scheme uses_netloc
           && negb (startswith url "//"))
    then "//" +:+ netloc
         +:+ (if truthy url && negb (startswith url "/")
             then "/" +:+ url else url)
    else url in
  let url := if truthy scheme then scheme +:+ ":" +:+ url else url in
  let url := if truthy query then url +:+ "?" +:+ query else url in
  if truthy fragment then url +:+ "#" +:+ fragment else url.

Definition urlunparse (p : ParseResult) : string :=
  let url :=
    if truthy (params p) then path p +:+ ";" +:+ params p else path p in
  urlunsplit (scheme p) (netloc p) url (query p) (fragment p).

(** [del l[-1]] *)
Definition drop_last (l : list string) : list string :=
  removelast l.

(** [segments[1:-1] = filter(None, segments[1:-1])] *)
Definition squeeze_middle (segments : list string) : list string :=
  match segments with
  | [] => []
  | first :: rest =>
      match rest with
      | [] => [first]
      | _ => first :: List.filter truthy (removelast rest)
               ++ [List.last rest EmptyString]
      end
  end.

(** The loop of [urljoin] that resolves [.] and [..] segments;
    [acc] is [resolved_path] in reverse. *)
Fixpoint resolve_segments (segments acc : list string) : list string :=
  match segments with
  | [] => rev acc
  | seg :: rest =>
      if String.eqb seg ".." then resolve_segments rest (tl acc)
      else if String.eqb seg "." then resolve_segments rest acc
      else resolve_segments rest (seg :: acc)
  end.

(** [urljoin(base, url)] *)
Definition urljoin (base url : string) : exc string :=
  if negb (truthy base) then Ret url
  else if negb (truthy url) then Ret base
  else
    b ← urlparse_with base "";
    u ← urlparse_with url (scheme b);
    if negb (String.eqb (scheme u) (scheme b))
       || negb (mem (scheme u) uses_relative)
    then Ret url
    else if mem (scheme u) uses_netloc && truthy (netloc u)
    then Ret (urlunparse u)
    else
      let netloc' :=
        if mem (scheme u) uses_netloc then netloc b else netloc u in
      if negb (truthy (path u)) && negb (truthy (params u)) then
        Ret (urlunparse
               {| scheme := scheme u; netloc := netloc';
                  path := path b; params := params b;
                  query := if truthy (query u) then query u
                           else query b;
                  fragment := fragment u |})
      else
        let base_parts := split "/" (path b) in
        let base_parts :=
          if truthy (List.last base_parts EmptyString)
          then drop_last base_parts else base_parts in
        let segments :=
          if startswith (path u) "/" then split "/" (path u)
          else squeeze_middle (base_parts ++ split "/" (path u)) in
        let resolved_path := resolve_segments segments [] in
        let last_seg := List.last segments EmptyString in
        let resolved_path :=
          if String.eqb last_seg "." || String.eqb last_seg ".."
          then resolved_path ++ [EmptyString] else resolved_path in
        let joined := join "/" resolved_path in
        Ret (urlunparse
               {| scheme := scheme u; netloc := netloc';
                  path := if truthy joined then joined else "/";
                  params := params u; query := query u;
                  fragment := fragment u |}).

End WithLib.

End Urllib.

(** ** The page the browser shows *)

(** A [<meta>] element: its [name], [property] and [content] attributes,
    [None] when the attribute is absent. *)
Record Meta := {
  meta_name : option string;
  meta_property : option string;
  meta_content : option string
}.

(** What the BeautifulSoup queries of the crawler return on one page. *)
Record Soup := {
  (** [a['href'] for a in soup.find_all('a', href=True)] *)
  a_hrefs : list string;
  (** [img['src'] for img in soup.find_all('img', src=True)] *)
  img_srcs : list string;
  (** [soup.find_all('link', rel='stylesheet', href=True)] *)
  stylesheet_hrefs : list string;
  (** [soup.find_all('script', src=True)] *)
  script_srcs : list string;
  (** [soup.find_all('meta')] *)
  metas : list Meta;
  (** [soup.find("html")]: [None] without such an element, else its
      [lang] attribute *)
  html_lang : option (option string);
  (** [soup.find("link", rel="icon")], as its [href] attribute *)
  link_icon : option (option string);
  (** [soup.find("link", rel="shortcut icon")], as its [href] attribute *)
  link_shortcut_icon : option (option string);
  (** [soup.find("title")], as [get_text(strip=True)] *)
  title_text : option string
}.

(** The state of one browser: [driver.page_source], [driver.current_url]
    and the parsed page. *)
Record Page := {
  page_source : string;
  current_url : string;
  soup : Soup
}.

(** ** crawler.py: link extraction and metadata *)

Module Crawler.

Import PyStr Urllib.

Section WithLib.
Context `{PyLib}.

Definition opt_truthy (o : option string) : bool :=
  match o with Some s => truthy s | None => false end.

(** The closure [normalize_url] of [WebCrawler.Map]; [base_url] and
    [current_url] are the variables it captures.  The result is
    [Ret None] for Python's [None]; an exception of [urljoin] is not
    caught here. *)
Definition normalize_url (base_url : option string)
    (current_url url : string) : exc (option string) :=
  if negb (truthy url)
     || startswith_any url ["javascript:"; "mailto:"; "tel:"; "#"; "data:"]
  then Ret None
  else
    url ← (if opt_truthy base_url
               && negb (startswith_any url ["http://"; "https://"])
            then urljoin (default "" base_url) url
            else if negb (startswith_any url ["http://"; "https://"])
            then urljoin current_url url
            else Ret url);
    match urlparse url with
    | Ret parsed =>
        let normalized :=
          scheme parsed +:+ "://" +:+ netloc parsed +:+ path parsed in
        Ret (Some (if truthy (query parsed)
                   then normalized +:+ "?" +:+ query parsed
                   else normalized))
    | Raise _ => Ret None
    end.

(** One [for] loop of [Map] over attribute values: normalise, filter by
    the pattern, add to the set [links]. *)
Fixpoint add_links (base_url : option string) (current_url : string)
    (filter_pattern : option string) (attrs : list string)
    (links : gset string) : exc (gset string) :=
  match attrs with
  | [] => Ret links
  | attr :: rest =>
      url ← normalize_url base_url current_url attr;
      match url with
      | Some url =>
          if truthy url then
            if opt_truthy filter_pattern
               && negb (re_search (default "" filter_pattern) url)
            then add_links base_url current_url filter_pattern rest links
            else add_links base_url current_url filter_pattern rest
                   ({[url]} ∪ links)
          else add_links base_url current_url filter_pattern rest links
      | None => add_links base_url current_url filter_pattern rest links
      end
  end.

Record MapResult := {
  status : string;
  links : list string;
  error : option string
}.

Definition map_error (msg : string) : MapResult :=
  {| status := "error"; links := []; error := Some msg |}.

(** [sorted(list(links))] *)
Definition sorted (links : gset string) : list string :=
  merge_sort String.le (elements links).

(** [WebCrawler.Map(base_url, include_assets, filter_pattern)] on the
    browser state [browser] ([Raise] when the driver cannot be
    queried). *)
Definition Map (browser : exc Page) (base_url : option string)
    (include_assets : bool) (filter_pattern : option string)
  : MapResult :=
  let body : exc MapResult :=
    let validated : option MapResult :=
      if opt_truthy base_url then
        match urlparse (default "" base_url) with
        | Ret parsed =>
            if truthy (scheme parsed) && truthy (netloc parsed) then None
            else Some (map_error "Invalid base_url provided")
        | Raise msg => Some (map_error ("Error parsing base_url: " +:+ msg))
        end
      else None in
    match validated with
    | Some r => Ret r
    | None =>
        let compiled : option MapResult :=
          if opt_truthy filter_pattern then
            match re_compile (default "" filter_pattern) with
            | Ret _ => None
            | Raise msg =>
                Some (map_error ("Invalid filter pattern: " +:+ msg))
            end
          else None in
        match compiled with
        | Some r => Ret r
        | None =>
            page ← browser;
            let add := add_links base_url (current_url page)
                         filter_pattern in
            links ← add (a_hrefs (soup page)) ∅;
            links ← (if include_assets then
                       links ← add (img_srcs (soup page)) links;
                       links ← add (stylesheet_hrefs (soup page)) links;
                       add (script_srcs (soup page)) links
                     else Ret links);
            Ret {| status := "success"; links := sorted links;
                   error := None |}
        end
    end in
  match body with
  | Ret r => r
  | Raise msg => map_error msg
  end.

(** Values of the metadata dictionary. *)
Inductive MetaValue :=
  | MStr (s : string)
  | MList (l : list string)
  | MInt (n : Z).

Definition multi_valued : list string :=
  ["og:title"; "og:url"; "og:description"; "og:image"].

(** [meta.get('name', meta.get('property', ''))] *)
Definition meta_key (meta : Meta) : string :=
  match meta_name meta with
  | Some n => n
  | None => default "" (meta_property meta)
  end.

(** [meta.get('content', '')] *)
Definition meta_text (meta : Meta) : string :=
  default "" (meta_content meta).

(** The body of the loop over [soup.find_all('meta')]. *)
Definition add_meta (meta : Meta) (meta_tags : gmap string MetaValue)
  : exc (gmap string MetaValue) :=
  let name := meta_key meta in
  let content := meta_text meta in
  if truthy name && truthy content then
    if mem name multi_valued then
      let meta_tags :=
        match meta_tags !! name with
        | None => <[name := MList []]> meta_tags
        | Some _ => meta_tags
        end in
      match meta_tags !! name with
      | Some (MList l) => Ret (<[name := MList (l ++ [content])]> meta_tags)
      | _ => Raise "object has no attribute 'append'"
      end
    else Ret (<[name := MStr content]> meta_tags)
  else Ret meta_tags.

Fixpoint add_metas (ms : list Meta) (meta_tags : gmap string MetaValue)
  : exc (gmap string MetaValue) :=
  match ms with
  | [] => Ret meta_tags
  | meta :: rest =>
      meta_tags ← add_meta meta meta_tags;
      add_metas rest meta_tags
  end.

(** [WebCrawler.extract_meta_tags()]; [uuid] is the value of
    [str(uuid.uuid4())]. *)
Definition extract_meta_tags (page : Page) (uuid : string)
  : exc (gmap string MetaValue) :=
  let s := soup page in
  let meta_tags : gmap string MetaValue := ∅ in
  let meta_tags := <["scrapeId" := MStr uuid]> meta_tags in
  let meta_tags := <["sourceURL" := MStr (current_url page)]> meta_tags in
  let meta_tags := <["statusCode" := MInt 200]> meta_tags in
  let meta_tags := <["url" := MStr (current_url page)]> meta_tags in
  lang ← match html_lang s with
          | Some lang => Ret (default "en-US" lang)
          | None => Raise "'NoneType' object has no attribute 'get'"
          end;
  let meta_tags := <["language" := MStr lang]> meta_tags in
  meta_tags ← add_metas (metas s) meta_tags;
  let favicon :=
    match link_icon s with
    | Some href => Some href
    | None => link_shortcut_icon s
    end in
  let meta_tags :=
    match favicon with
    | Some (Some href) =>
        if truthy href then <["favicon" := MStr href]> meta_tags
        else meta_tags
    | _ => meta_tags
    end in
  let meta_tags :=
    match title_text s with
    | Some t => <["title" := MStr t]> meta_tags
    | None => meta_tags
    end in
  let meta_tags :=
    match meta_tags !! "og:site_name", meta_tags !! "title" with
    | None, Some t => <["og:site_name" := t]> meta_tags
    | _, _ => meta_tags
    end in
  let meta_tags :=
    match meta_tags !! "og:type" with
    | None => <["og:type" := MStr "website"]> meta_tags
    | Some _ => meta_tags
    end in
  let meta_tags :=
    match meta_tags !! "viewport" with
    | None =>
        <["viewport" := MStr "width=device-width, initial-scale=1"]>
          meta_tags
    | Some _ => meta_tags
    end in
  Ret meta_tags.

End WithLib.

End Crawler.

(** ** scrape.py: the document model, markdown rendering, format dispatch *)

Module Scrape.

Import PyStr.
Export Crawler.

Definition nl : string := String (chr 10) EmptyString.

Record Link := { link_text : string; link_url : string }.

Record Subsection := {
  sub_headline : string;
  sub_description : string;
  sub_links : list Link;
  sub_content : string
}.

Record Section := {
  headline : string;
  description : string;
  section_links : list Link;
  content : string;
  subsections : list Subsection
}.

Record Review := {
  author : string;
  date : string;
  review_text : string;
  platform : string;
  rating : string;
  read_more : bool;
  verified : bool
}.

(** The dictionary built by [_extract_json]; a key that
    [_json_to_markdown] reads with [get] and finds absent is the empty
    value of its field. *)
Record Document := {
  title : string;
  metadata : gmap string MetaValue;
  sections : list Section;
  reviews : list Review;
  scrape_id : string;
  source_url : string;
  status_code : Z
}.

Definition render_link (link : Link) : list string :=
  [ if startswith_any (link_url link) ["http://"; "https://"]
    then "[Redirect to " +:+ link_url link +:+ "](" +:+ link_url link +:+ ")"
    else "[" +:+ link_text link +:+ "](" +:+ link_url link +:+ ")";
    "" ].

Definition render_text (s : string) : list string :=
  if truthy s then [s; ""] else [].

Definition render_content (content description : string) : list string :=
  if truthy content && negb (String.eqb content description)
  then [content; ""] else [].

Definition render_subsection (sub : Subsection) : list string :=
  (if truthy (sub_headline sub) then ["## " +:+ sub_headline sub; ""]
   else [])
  ++ render_text (sub_description sub)
  ++ render_content (sub_content sub) (sub_description sub)
  ++ flat_map render_link (sub_links sub).

Definition render_section (section : Section) : list string :=
  (if truthy (headline section) then
     [ if startswith (headline section) "#" then headline section
       else "# **" +:+ headline section +:+ "**"; "" ]
   else [])
  ++ render_text (description section)
  ++ render_content (content section) (description section)
  ++ flat_map render_link (section_links section)
  ++ flat_map render_subsection (subsections section).

Definition render_review (review : Review) : list string :=
  let review_parts :=
    (if truthy (author review) then [author review] else [])
    ++ (if truthy (date review) then [date review] else [])
    ++ (if truthy (platform review) then ["on " +:+ platform review]
        else [])
    ++ (if truthy (rating review) then [rating review] else [])
    ++ (if truthy (review_text review) then
          review_text review
          :: (if read_more review then ["Read more"] else [])
        else []) in
  match review_parts with
  | [] => []
  | _ => review_parts ++ [""]
  end.

Definition important_fields : list string :=
  ["title"; "description"; "og:title"; "og:description"; "og:image";
   "twitter:image"; "language"; "viewport"].

Definition render_field (metadata : gmap string MetaValue)
    (field : string) : list string :=
  match metadata !! field with
  | Some (MStr s) =>
      if truthy s then [field +:+ ": " +:+ s; ""] else []
  | Some (MList l) =>
      match l with
      | [] => []
      | _ => map (fun v => field +:+ ": " +:+ v) l ++ [""]
      end
  | Some (MInt n) =>
      if n =? 0 then [] else [field +:+ ": " +:+ pretty n; ""]
  | None => []
  end.

(** [Scrape._json_to_markdown(data)] *)
Definition _json_to_markdown (data : Document) : string :=
  let md :=
    render_text (title data)
    ++ flat_map render_section (sections data)
    ++ match reviews data with
       | [] => []
       | rs => ["# **Why We're #1 on Amazon**"; ""]
               ++ flat_map render_review rs
       end
    ++ (if bool_decide (metadata data = ∅) then []
        else ["---"; ""]
             ++ flat_map (render_field (metadata data)) important_fields) in
  strip isspace (join nl md).

(** ** The format dispatch of [Scrape.scrape] *)

Inductive Action :=
  | ActWait (milliseconds : Z)
  | ActClick (selector : option string)
  | ActWrite (selector : option string) (text : string)
  | ActPress (key : string)
  | ActOther (type : string).

(** The scraper's browser once it has been sent to a URL and the actions
    have run: what each later call answers. *)
Record Visit := {
  (** [_perform_actions(actions)] *)
  performed : exc unit;
  (** the driver: [Raise] when it cannot be queried *)
  browser : exc Page;
  (** [_extract_json()] *)
  extracted : exc Document;
  (** [_take_screenshot(full_page)] *)
  screenshot : bool -> exc string;
  (** [datetime.now().isoformat()] *)
  timestamp : string
}.

Inductive FormatValue :=
  | FText (s : string)
  | FJson (d : Document)
  | FLinks (l : list string).

(** The dictionary returned by [scrape]: [timestamp] is present on
    success, [error] on failure. *)
Record ScrapeResult := {
  result_url : string;
  result_timestamp : option string;
  result_error : option string;
  formats : gmap string FormatValue
}.

Section WithLib.
Context `{PyLib}.

Definition _get_markdown (v : Visit) : exc string :=
  data ← extracted v; Ret (_json_to_markdown data).

Definition get_page_source (v : Visit) : exc string :=
  page ← browser v; Ret (page_source page).

(** One iteration of [for format in output_formats]. *)
Definition add_format (v : Visit) (format : string)
    (fs : gmap string FormatValue) : exc (gmap string FormatValue) :=
  if String.eqb format "markdown" then
    x ← _get_markdown v; Ret (<["markdown" := FText x]> fs)
  else if String.eqb format "json" then
    x ← extracted v; Ret (<["json" := FJson x]> fs)
  else if String.eqb format "html" then
    x ← get_page_source v; Ret (<["html" := FText x]> fs)
  else if String.eqb format "rawHtml" then
    x ← get_page_source v; Ret (<["rawHtml" := FText x]> fs)
  else if String.eqb format "screenshot" then
    x ← screenshot v false; Ret (<["screenshot" := FText x]> fs)
  else if String.eqb format "screenshot@fullPage" then
    x ← screenshot v true; Ret (<["screenshot" := FText x]> fs)
  else if String.eqb format "links" then
    Ret (<["links" := FLinks (links (Map (browser v) None false None))]> fs)
  else Ret fs.

Fixpoint add_formats (v : Visit) (output_formats : list string)
    (fs : gmap string FormatValue) : exc (gmap string FormatValue) :=
  match output_formats with
  | [] => Ret fs
  | format :: rest =>
      fs ← add_format v format fs; add_formats v rest fs
  end.

(** [Scrape.scrape(url, output_formats, actions)]; [visit url actions]
    is the browser after [go_to_url(url)]. *)
Definition scrape (visit : string -> option (list Action) -> Visit)
    (url : string) (output_formats : list string)
    (actions : option (list Action)) : ScrapeResult :=
  let v := visit url actions in
  let body :=
    _ ← match actions with
         | Some (_ :: _) => performed v
         | _ => Ret tt
         end;
    add_formats v output_formats ∅ in
  match body with
  | Ret fs =>
      {| result_url := url; result_timestamp := Some (timestamp v);
         result_error := None; formats := fs |}
  | Raise msg =>
      {| result_url := url; result_timestamp := None;
         result_error := Some msg; formats := ∅ |}
  end.

End WithLib.

End Scrape.

(** ** crawler.py: the breadth-first crawl *)

Module Crawl.

Import PyStr Urllib.
Export Scrape.

(** The local variables of [WebCrawler.crawl] at the head of its [while]
    loop, with two traces: [crawled] holds the [logger.info("Crawling:
    ...")] lines and [popped] the values returned by [queue.pop(0)], both
    oldest first. *)
Record State := {
  queue : list (string * Z);
  seen : gset string;
  results : gmap string ScrapeResult;
  crawled : list (string * Z);
  popped : list (string * Z)
}.

Section WithLib.
Context `{PyLib}.

(** The arguments of [crawl] and the two browsers it talks to: the
    scraper's own ([visit]) and the crawler's ([own_browser], read by the
    fallback [self.Map(base_url=url)]).  [time.sleep(rate_limit)] takes
    time and changes no variable; it is not modelled. *)
Variable visit : string -> option (list Action) -> Visit.
Variable own_browser : exc Page.
Variable output_formats : list string.
Variable max_depth : Z.
Variable follow_subdomains : bool.
Variable actions_per_url : option (gmap string (list Action)).

(** [for link in links: ...], appending to [queue]; [urlparse] is
    called outside any [try]. *)
Fixpoint offer (base_domain : string) (seen : gset string) (depth : Z)
    (links : list string) (queue : list (string * Z))
  : exc (list (string * Z)) :=
  match links with
  | [] => Ret queue
  | link :: rest =>
      parsed ← urlparse link;
      if negb (startswith (scheme parsed) "http") then
        offer base_domain seen depth rest queue
      else if negb follow_subdomains
              && negb (String.eqb (netloc parsed) base_domain) then
        offer base_domain seen depth rest queue
      else if bool_decide (link ∉ seen) then
        offer base_domain seen depth rest (queue ++ [(link, depth + 1)])
      else offer base_domain seen depth rest queue
  end.

(** [actions_per_url[url] if actions_per_url and url in actions_per_url
    else None] *)
Definition actions_for (url : string) : option (list Action) :=
  match actions_per_url with
  | Some m => if bool_decide (m = ∅) then None else m !! url
  | None => None
  end.

(** The links followed from a scraped page: the [links] format when it
    is a non-empty list, else the fallback [Map]. *)
Definition links_of (url : string) (result : ScrapeResult)
  : list string :=
  match formats result !! "links" with
  | Some (FLinks (l :: ls)) => l :: ls
  | _ => links (Map own_browser (Some url) false None)
  end.

(** One iteration of the [while queue:] loop; [None] when the queue is
    empty and the loop ends. *)
Definition step (base_domain : string) (st : State)
  : exc (option State) :=
  match queue st with
  | [] => Ret None
  | (url, depth) :: queue =>
      let popped := popped st ++ [(url, depth)] in
      if bool_decide (url ∈ seen st) || (max_depth <? depth) then
        Ret (Some {| queue := queue; seen := seen st;
                     results := results st; crawled := crawled st;
                     popped := popped |})
      else
        let seen := {[url]} ∪ seen st in
        let crawled := crawled st ++ [(url, depth)] in
        let result :=
          scrape visit url output_formats (actions_for url) in
        let results := <[url := result]> (results st) in
        queue ← (if depth <? max_depth
                  then offer base_domain seen depth
                         (links_of url result) queue
                  else Ret queue);
        Ret (Some {| queue := queue; seen := seen; results := results;
                     crawled := crawled; popped := popped |})
  end.

(** The [while] loop, for at most [fuel] iterations; [None] when the
    fuel runs out first. *)
Fixpoint loop (fuel : nat) (base_domain : string) (st : State)
  : option (exc State) :=
  match fuel with
  | O => None
  | S fuel =>
      match step base_domain st with
      | Raise msg => Some (Raise msg)
      | Ret None => Some (Ret st)
      | Ret (Some st') => loop fuel base_domain st'
      end
  end.

Definition initial (start_url : string) : State :=
  {| queue := [(start_url, 0)]; seen := ∅; results := ∅;
     crawled := []; popped := [] |}.

(** [WebCrawler.crawl(start_url, ...)] run to its last state, of which
    [results] is the value returned. *)
Definition crawl_run (fuel : nat) (start_url : string)
  : option (exc State) :=
  match urlparse start_url with
  | Raise msg => Some (Raise msg)
  | Ret parsed => loop fuel (netloc parsed) (initial start_url)
  end.

Definition crawl (fuel : nat) (start_url : string)
  : option (exc (gmap string ScrapeResult)) :=
  r ← crawl_run fuel start_url;
  Some (st ← r; Ret (results st)).

(** The states the loop goes through. *)
Inductive reachable (start_url : string) : State -> Prop :=
  | reachable_initial : reachable start_url (initial start_url)
  | reachable_step parsed st st' :
      urlparse start_url = Ret parsed ->
      reachable start_url st ->
      step (netloc parsed) st = Ret (Some st') ->
      reachable start_url st'.

(** The state after [n] iterations of the loop; [None] when the loop has
    ended before. *)
Fixpoint iterate (n : nat) (base_domain : string) (st : State)
  : exc (option State) :=
  match n with
  | O => Ret (Some st)
  | S n =>
      r ← step base_domain st;
      match r with
      | Some st' => iterate n base_domain st'
      | None => Ret None
      end
  end.

End WithLib.

End Crawl.

(** ** screenshot_manager.py: full-page capture *)

Module Screenshot.

Import PyStr.

(** [list(range(start, stop, step))] *)
Definition range (start stop step : Z) : exc (list Z) :=
  if step =? 0 then Raise "range() arg 3 must not be zero"
  else
    let n :=
      if 0 <? step then (stop - start + step - 1) / step
      else (start - stop - step - 1) / (- step) in
    Ret (map (fun i => start + Z.of_nat i * step) (seq 0 (Z.to_nat n))).

(** The driver during one capture: what the page reports to
    [execute_script], and the [bytes] that [get_screenshot_as_png()]
    returns once the window is scrolled to [y]. *)
Record Driver := {
  scrollHeight : Z;
  scrollWidth : Z;
  innerHeight : Z;
  get_screenshot_as_png : Z -> string
}.

(** Calls made on the driver inside the loop. *)
Inductive DriverCall :=
  | ScrollTo (x y : Z)
  | Sleep500ms
  | GetScreenshotAsPng.

(** A PIL image: its size and the boxes pasted into it, oldest first.
    Pasting never changes the size. *)
Record Image := {
  size : Z * Z;
  pasted : list (Z * Z)
}.

(** [Image.new('RGB', size)] *)
Definition Image_new (size : Z * Z) : exc Image :=
  if (fst size <? 0) || (snd size <? 0)
  then Raise "Width and height must be >= 0"
  else Ret {| size := size; pasted := [] |}.

Definition paste (im : Image) (box : Z * Z) : Image :=
  {| size := size im; pasted := pasted im ++ [box] |}.

(** [Image.open(fp)] for [fp] of type [bytes].  PIL takes a [bytes]
    argument, like a [str], for the name of a file and calls
    [open(fp, "rb")], which refuses a name that holds a NUL byte;
    [open_file] is what opening and decoding the file of that name gives
    otherwise. *)
Definition Image_open (open_file : string -> exc Image) (fp : string)
  : exc Image :=
  if contains (chr 0) fp then Raise "embedded null byte" else open_file fp.

(** Every PNG file starts with the signature and its first chunk: a length
    of 13 in four bytes, then [IHDR]. *)
Definition png_header : string :=
  String (chr 137) "PNG"
  +:+ String (chr 13) (String (chr 10) (String (chr 26) (String (chr 10) "")))
  +:+ String (chr 0) (String (chr 0) (String (chr 0) (String (chr 13) "")))
  +:+ "IHDR".

Section WithOpener.

(** [Image.open] as the loop calls it. *)
Variable opener : string -> exc Image.

(** [for y in ys: ...] on the image and the trace of driver calls; the
    trace is kept when the loop is left by an exception. *)
Fixpoint capture_loop (driver : Driver) (ys : list Z)
    (full_screenshot : Image) (calls : list DriverCall)
  : list DriverCall * exc Image :=
  match ys with
  | [] => (calls, Ret full_screenshot)
  | y :: ys =>
      let calls := calls ++ [ScrollTo 0 y; Sleep500ms; GetScreenshotAsPng] in
      let screenshot := get_screenshot_as_png driver y in
      match opener screenshot with
      | Ret viewport =>
          capture_loop driver ys (paste full_screenshot (0, y)) calls
      | Raise msg => (calls, Raise msg)
      end
  end.

Definition capture_full_page_with (driver : Driver)
  : list DriverCall * exc Image :=
  let total_height := scrollHeight driver in
  let total_width := scrollWidth driver in
  let viewport_height := innerHeight driver in
  match Image_new (total_width, total_height) with
  | Raise msg => ([], Raise msg)
  | Ret full_screenshot =>
      match range 0 total_height viewport_height with
      | Raise msg => ([], Raise msg)
      | Ret ys => capture_loop driver ys full_screenshot []
      end
  end.

End WithOpener.

(** [ScreenshotManager.capture_full_page(driver)]: the calls made on the
    driver while stitching, and the image that is saved or the exception
    that ends the capture. *)
Definition capture_full_page (open_file : string -> exc Image)
    (driver : Driver) : list DriverCall * exc Image :=
  capture_full_page_with (Image_open open_file) driver.

Definition scroll_offsets (calls : list DriverCall) : list Z :=
  flat_map (fun c => match c with ScrollTo _ y => [y] | _ => [] end) calls.

Definition captures (calls : list DriverCall) : nat :=
  length (List.filter
            (fun c => match c with GetScreenshotAsPng => true | _ => false end)
            calls).

End Screenshot.

(** ** crawler.py and scrape.py: saving to files *)

Module Files.

Import PyStr Scrape.

(** A path built with [Path(dir) / name / ...]: its parts, first to
    last. *)
Definition Path := list string.

(** What a call has changed on disk, oldest first. *)
Inductive Effect :=
  | Mkdir (dir : Path)
  | WriteText (file : Path) (text : string).

(** The disk as a call finds it: [dir.mkdir(parents=True, exist_ok=True)],
    and [open(file, 'w')] followed by [f.write(text)]; each may raise
    [OSError]. *)
Record Disk := {
  mkdir : Path -> exc unit;
  write_text : Path -> string -> exc unit
}.

(** The [str] a save method returns: [str(filepath)], or the message built
    in its [except] branch. *)
Inductive Saved :=
  | SavedTo (file : Path)
  | NotSaved (message : string).

(** [WebCrawler.save_links(links, filename, format)]; [now] is the
    timestamp [strftime] gives and [json_dump links] the text of
    [json.dump({"links": links}, f, indent=2)]. *)
Definition save_links (disk : Disk) (screenshot_dir now : string)
    (json_dump : list string -> string)
    (links : list string) (filename : option string) (format : string)
  : list Effect * Saved :=
  let failed msg := NotSaved ("Error saving links: " +:+ msg) in
  let links_dir := [screenshot_dir; "links"] in
  match mkdir disk links_dir with
  | Raise msg => ([], failed msg)
  | Ret _ =>
      let filename :=
        match filename with
        | None => "links_" +:+ now
        | Some filename => filename
        end in
      let filename :=
        if String.eqb format "json" then filename +:+ ".json"
        else filename +:+ ".txt" in
      let filepath := links_dir ++ [filename] in
      let text :=
        if String.eqb format "json" then json_dump links
        else join nl links in
      match write_text disk filepath text with
      | Raise msg => ([Mkdir links_dir], failed msg)
      | Ret _ => ([Mkdir links_dir; WriteText filepath text], SavedTo filepath)
      end
  end.

(** [Scrape.save(content, format, filename)] *)
Definition save (disk : Disk) (screenshot_dir now : string)
    (content format : string) (filename : option string)
  : list Effect * Saved :=
  let failed msg := NotSaved ("Error saving content: " +:+ msg) in
  let output_dir := [screenshot_dir; format] in
  match mkdir disk output_dir with
  | Raise msg => ([], failed msg)
  | Ret _ =>
      let filename :=
        match filename with
        | None => "content_" +:+ now
        | Some filename => filename
        end in
      let filename : exc string :=
        if String.eqb format "markdown" then Ret (filename +:+ ".md")
        else if String.eqb format "html" then Ret (filename +:+ ".html")
        else if String.eqb format "rawHtml" then Ret (filename +:+ ".html")
        else if String.eqb format "json" then Ret (filename +:+ ".json")
        else Raise ("Unsupported format: " +:+ format) in
      match filename with
      | Raise msg => ([Mkdir output_dir], failed msg)
      | Ret filename =>
          let filepath := output_dir ++ [filename] in
          match write_text disk filepath content with
          | Raise msg => ([Mkdir output_dir], failed msg)
          | Ret _ =>
              ([Mkdir output_dir; WriteText filepath content],
               SavedTo filepath)
          end
      end
  end.

End Files.

(** ** scrape.py: the screenshot formats *)

Module TakeScreenshot.

Import PyStr.

(** ['a'], ['a' and 'b'], ['a', 'b', and 'c']: the names in the message of
    a missing argument. *)
Fixpoint quoted_names (names : list string) : string :=
  match names with
  | [] => ""
  | [a] => "'" +:+ a +:+ "'"
  | [a; b] => "'" +:+ a +:+ "' and '" +:+ b +:+ "'"
  | a :: rest =>
      "'" +:+ a +:+ "', "
      +:+ match rest with
          | [b; c] => "'" +:+ b +:+ "', and '" +:+ c +:+ "'"
          | _ => quoted_names rest
          end
  end.

(** A call [f(k1=..., ..., kn=...)] of a method with the parameters
    [params] after [self], each with whether it has a default: Python
    raises [TypeError] for a keyword that names no parameter, and for
    parameters without default that are not passed. *)
Definition bind_keywords (qualname : string) (params : list (string * bool))
    (keywords : list string) : exc unit :=
  match List.find (fun k => negb (Urllib.mem k (map fst params))) keywords with
  | Some k =>
      Raise (qualname +:+ "() got an unexpected keyword argument '" +:+ k
             +:+ "'")
  | None =>
      match List.filter
              (fun p => negb (snd p) && negb (Urllib.mem (fst p) keywords))
              params with
      | [] => Ret tt
      | missing =>
          Raise (qualname +:+ "() missing " +:+ pretty (length missing)
                 +:+ " required positional argument"
                 +:+ (if (length missing =? 1)%nat then "" else "s")
                 +:+ ": " +:+ quoted_names (map fst missing))
      end
  end.

(** [def take_screenshot(self, filename, screenshot_type="viewport",
    element_text=None)] *)
Definition take_screenshot_params : list (string * bool) :=
  [("filename", false); ("screenshot_type", true); ("element_text", true)].

(** [Scrape._take_screenshot(full_page)], that is
    [self.crawler.take_screenshot(full_page=full_page)]; [taken] is what
    the body of [take_screenshot] returns once the call is bound. *)
Definition _take_screenshot (taken : exc string) (full_page : bool)
  : exc string :=
  _ ← bind_keywords "WebCrawler.take_screenshot" take_screenshot_params
        ["full_page"];
  taken.

End TakeScreenshot.

(** * Vocabulary of the statements *)

Import PyStr Urllib Crawl.

Section Vocabulary.
Context `{PyLib}.

(** ** Canonical forms *)

(** A scheme character that is not an upper-case letter. *)
Definition lower_scheme_char (c : ascii) : bool :=
  scheme_char c && negb (is_upper c).

Definition part (sep : ascii) (o : option string) : string :=
  match o with Some x => String sep x | None => "" end.

(** [sch://host path ?query #fragment], the last two optional. *)
Definition absolute_url (sch host path : string)
    (query fragment : option string) : string :=
  sch +:+ "://" +:+ host +:+ path +:+ part "?" query +:+ part "#" fragment.

(** None of the characters [cs] occurs in [s]. *)
Definition no_char (cs : list ascii) (s : string) : bool :=
  List.forallb (fun c => negb (contains c s)) cs.

Definition tab_cr_lf : list ascii := [chr 9; chr 13; chr 10].

(** The parts of an absolute URL that the parser takes apart where they
    were put together: no delimiter of a later part inside an earlier one,
    no bracket in the host, no [;] in the path, no tab or line break. *)
Definition plain_parts (host path : string) (query : option string) : bool :=
  no_char (["/"; "?"; "#"; "["; "]"] ++ tab_cr_lf)%char host
  && (negb (truthy path) || startswith path "/")
  && no_char (["?"; "#"; ";"] ++ tab_cr_lf)%char path
  && no_char (["#"] ++ tab_cr_lf)%char (default "" query).

(** The text of an absolute URL up to its fragment, without the [?] of an
    empty query. *)
Definition canonical (sch host path : string) (query : option string)
  : string :=
  sch +:+ "://" +:+ host +:+ path
  +:+ (if truthy (default "" query) then "?" +:+ default "" query else "").

(** ** Link extraction *)

(** The attribute values [Map] goes through, in the order of its loops. *)
Definition link_attributes (include_assets : bool) (s : Soup) : list string :=
  a_hrefs s
  ++ (if include_assets
      then img_srcs s ++ stylesheet_hrefs s ++ script_srcs s else []).

(** The pattern test of [Map] keeps the URL. *)
Definition passes (filter_pattern : option string) (url : string) : Prop :=
  opt_truthy filter_pattern
  && negb (re_search (default "" filter_pattern) url) = false.

(** ** Metadata *)

(** The contents of the [<meta>] elements under the key [name] that the
    loop does not skip, in document order. *)
Definition occurrences (name : string) (ms : list Meta) : list string :=
  map meta_text
    (List.filter (fun m => String.eqb (meta_key m) name
                           && truthy (meta_key m) && truthy (meta_text m)) ms).

(** The value under [k] once the loop has run over [ms] from [m0]. *)
Definition after_metas (m0 : gmap string MetaValue) (ms : list Meta)
    (k : string) : option MetaValue :=
  if mem k multi_valued then
    match occurrences k ms, m0 !! k with
    | [], v => v
    | cs, Some (MList l0) => Some (MList (l0 ++ cs))
    | cs, _ => Some (MList cs)
    end
  else
    match last (occurrences k ms) with
    | Some c => Some (MStr c)
    | None => m0 !! k
    end.

(** No multi-valued key is bound to anything but a list. *)
Definition lists_only (m : gmap string MetaValue) : Prop :=
  forall k, mem k multi_valued = true ->
    m !! k = None \/ exists l, m !! k = Some (MList l).

(** The dictionary [extract_meta_tags] has built when its loop starts. *)
Definition initial_tags (page : Page) (uuid lang : string)
  : gmap string MetaValue :=
  <["language" := MStr lang]>
    (<["url" := MStr (current_url page)]>
       (<["statusCode" := MInt 200]>
          (<["sourceURL" := MStr (current_url page)]>
             (<["scrapeId" := MStr uuid]> ∅)))).

(** ** Output formats *)

(** The names tested by the [if]/[elif] chain of [scrape]. *)
Definition supported_formats : list string :=
  ["markdown"; "json"; "html"; "rawHtml"; "screenshot";
   "screenshot@fullPage"; "links"].

Definition supported (format : string) : bool := mem format supported_formats.

(** The key of [results["formats"]] under which [scrape] stores a format;
    [None] for a name its [if]/[elif] chain does not test. *)
Definition format_key (format : string) : option string :=
  if mem format ["markdown"; "json"; "html"; "rawHtml"; "screenshot"; "links"]
  then Some format
  else if String.eqb format "screenshot@fullPage" then Some "screenshot"
  else None.

End Vocabulary.

(** ** The crawl *)

Module Frontier.

Section WithLib.
Context `{PyLib}.

Variable visit : string -> option (list Action) -> Visit.
Variable own_browser : exc Page.
Variable output_formats : list string.
Variable max_depth : Z.
Variable follow_subdomains : bool.
Variable actions_per_url : option (gmap string (list Action)).

(** A link is put on the queue when it parses, its scheme starts with
    [http], its host is the seed's unless [follow_subdomains] is set, and it
    is not visited yet. *)
Definition admitted (base_domain : string) (seen : gset string)
    (link : string) : Prop :=
  (link ∉ seen)
  /\ exists parsed, urlparse link = Ret parsed
       /\ startswith (scheme parsed) "http" = true
       /\ (follow_subdomains = false -> netloc parsed = base_domain).

(** What holds of the variables of [crawl] at the head of its loop. *)
Record invariant (start_url base_domain : string) (st : State) : Prop := {
  inv_seen : forall u, u ∈ seen st <-> u ∈ (crawled st).*1;
  inv_results : forall u, u ∈ seen st <-> is_Some (results st !! u);
  inv_nodup : NoDup (crawled st).*1;
  inv_popped : forall e, e ∈ crawled st -> e ∈ popped st;
  inv_sorted : StronglySorted Z.le ((popped st ++ queue st).*2);
  inv_level : forall e e', e ∈ queue st -> e' ∈ queue st -> e'.2 <= e.2 + 1;
  inv_host : follow_subdomains = false ->
             forall e, e ∈ popped st ++ queue st ->
               e.1 = start_url
               \/ exists parsed, urlparse e.1 = Ret parsed
                    /\ netloc parsed = base_domain
}.

(** An upper bound on the iterations needed to clear a queue entry
    [(url, depth)] with [max_depth - depth < budget]: the entry itself
    and all the entries its links can put on the queue. *)
Fixpoint weight (budget : nat) (url : string) : nat :=
  match budget with
  | O => 1
  | S budget =>
      S (list_sum
           (map (weight budget)
              (links_of own_browser url
                 (scrape visit url output_formats
                    (actions_for actions_per_url url)))))
  end.

Definition entry_weight (e : string * Z) : nat :=
  weight (Z.to_nat (max_depth + 1 - snd e)) (fst e).

Definition queue_weight (queue : list (string * Z)) : nat :=
  list_sum (map entry_weight queue).

End WithLib.

End Frontier.

(** * Example inputs *)

(** A library whose host and pattern checks accept everything; none of the
    examples below has a bracketed host or a pattern. *)
Definition permissive : PyLib :=
  {| check_bracketed_netloc := fun _ => Ret tt;
     re_compile := fun _ => Ret tt;
     re_search := fun _ _ => true |}.

(** A document with one section that has a headline and nothing else. *)
Definition doc_hi : Document :=
  {| title := ""; metadata := ∅;
     sections := [ {| headline := "Hi"; description := "";
                      section_links := []; content := "";
                      subsections := [] |} ];
     reviews := []; scrape_id := ""; source_url := ""; status_code := 200 |}.

(** A page at [url] with the given anchors and [<meta>] elements. *)
Definition page_of (url : string) (hrefs : list string) (ms : list Meta)
  : Page :=
  {| page_source := "<html></html>"; current_url := url;
     soup := {| a_hrefs := hrefs; img_srcs := []; stylesheet_hrefs := [];
                script_srcs := []; metas := ms; html_lang := Some None;
                link_icon := None; link_shortcut_icon := None;
                title_text := None |} |}.

Definition hrefs_at (pages : list (string * list string)) (url : string)
  : list string :=
  match List.find (fun p => String.eqb (fst p) url) pages with
  | Some p => snd p
  | None => []
  end.

(** A web of pages given by their anchors, as the scraper's browser sees
    it. *)
Definition site (pages : list (string * list string))
    (url : string) (actions : option (list Action)) : Visit :=
  {| performed := Ret tt;
     browser := Ret (page_of url (hrefs_at pages url) []);
     extracted := Ret doc_hi;
     screenshot := fun _ => Raise "unexpected keyword argument 'full_page'";
     timestamp := "2025-01-01T00:00:00" |}.

(** The crawler's own browser on an empty page. *)
Definition blank : exc Page := Ret (page_of "data:," [] []).

(** A seed on [a.com] that links to a subdomain and to another site. *)
Definition two_hosts : list (string * list string) :=
  [("http://a.com/", ["http://b.a.com/"; "http://x.com/"])].

(** Two pages at depth one that both link to [/r]. *)
Definition diamond : list (string * list string) :=
  [("http://a.com/", ["/p"; "/q"]);
   ("http://a.com/p", ["/r"]);
   ("http://a.com/q", ["/r"])].

(** A seed given with a fragment, on a page that links to itself. *)
Definition fragment_seed : list (string * list string) :=
  [("http://a.com/x#frag", ["/x"]); ("http://a.com/x", ["/x"])].

Definition og (property content : string) : Meta :=
  {| meta_name := None; meta_property := Some property;
     meta_content := Some content |}.

Definition named (name content : string) : Meta :=
  {| meta_name := Some name; meta_property := None;
     meta_content := Some content |}.

(** A page with two [og:image] elements and two descriptions. *)
Definition two_images : Page :=
  page_of "http://a.com/" []
    [og "og:image" "a.png"; named "description" "one";
     og "og:image" "b.png"; named "description" "two"].

(** A seed whose page links to a URL that [urlparse] refuses. *)
Definition bad_link : list (string * list string) :=
  [("http://a.com/", ["ftp:[x"])].

(** A page with one anchor and one image. *)
Definition gallery : Page :=
  {| page_source := "<html></html>"; current_url := "http://a.com/";
     soup := {| a_hrefs := ["/a"]; img_srcs := ["/i.png"];
                stylesheet_hrefs := []; script_srcs := []; metas := [];
                html_lang := Some None; link_icon := None;
                link_shortcut_icon := None; title_text := None |} |}.

(** A page with a [<title>], an icon link, and [<meta>] elements that name
    a title, a favicon and a scrape id of their own. *)
Definition titled : Page :=
  {| page_source := "<html></html>"; current_url := "http://a.com/";
     soup := {| a_hrefs := []; img_srcs := []; stylesheet_hrefs := [];
                script_srcs := [];
                metas := [named "title" "Meta title";
                          named "favicon" "/meta.ico";
                          named "scrapeId" "chosen-by-the-page"];
                html_lang := Some (Some "de"); link_icon := Some (Some "/i.ico");
                link_shortcut_icon := None; title_text := Some "Home" |} |}.

(** A site as [site], with the screenshots [_take_screenshot] gives. *)
Definition snapping (pages : list (string * list string))
    (url : string) (actions : option (list Action)) : Visit :=
  {| performed := Ret tt;
     browser := Ret (page_of url (hrefs_at pages url) []);
     extracted := Ret doc_hi;
     screenshot :=
       TakeScreenshot._take_screenshot
         (Ret "Viewport screenshot saved to: screenshots/viewport/shot.png");
     timestamp := "2025-01-01T00:00:00" |}.

(** A document with a title and the given metadata. *)
Definition doc_about (m : gmap string MetaValue) : Document :=
  {| title := "About"; metadata := m; sections := []; reviews := [];
     scrape_id := ""; source_url := ""; status_code := 200 |}.

(** A disk that takes every directory and every file. *)
Definition working_disk : Files.Disk :=
  {| Files.mkdir := fun _ => Ret tt; Files.write_text := fun _ _ => Ret tt |}.

(** A driver on a page of the given size that answers with PNG data. *)
Definition png_driver (height width viewport_height : Z) : Screenshot.Driver :=
  {| Screenshot.scrollHeight := height; Screenshot.scrollWidth := width;
     Screenshot.innerHeight := viewport_height;
     Screenshot.get_screenshot_as_png :=
       fun _ => Screenshot.png_header +:+ "..." |}.

(** * Properties *)

(** ** Strings *)

Section StringFacts.

Lemma str_app_cons x (a b : string) : String x a +:+ b = String x (a +:+ b).
Proof. reflexivity. Qed.

Lemma str_app_nil_l (a : string) : "" +:+ a = a.
Proof. reflexivity. Qed.

Lemma str_app_assoc (a b c : string) : (a +:+ b) +:+ c = a +:+ (b +:+ c).
Proof.
  induction a as [|x a IH]; [done|]. by rewrite !str_app_cons, IH.
Qed.

Lemma str_app_nil_r (a : string) : a +:+ "" = a.
Proof. induction a as [|x a IH]; [done|]. by rewrite str_app_cons, IH. Qed.

Lemma contains_app c a b :
  contains c (a +:+ b) = contains c a || contains c b.
Proof.
  induction a as [|x a IH]; [done|]. rewrite str_app_cons. simpl.
  rewrite IH. by rewrite orb_assoc.
Qed.

Lemma all_app p a b :
  all p (a +:+ b) = all p a && all p b.
Proof.
  induction a as [|x a IH]; [done|]. rewrite str_app_cons. simpl.
  rewrite IH. by rewrite andb_assoc.
Qed.

Lemma all_impl (p q : ascii -> bool) s :
  (forall c, p c = true -> q c = true) ->
  all p s = true -> all q s = true.
Proof.
  intros Hpq. induction s as [|x s IH]; simpl; [done|].
  intros [Hx Hs]%andb_true_iff. by rewrite (Hpq _ Hx), IH.
Qed.

Lemma all_not_contains c s :
  all (fun x => negb (Ascii.eqb x c)) s = true <->
  contains c s = false.
Proof.
  induction s as [|x s IH]; simpl; [done|].
  rewrite andb_true_iff, orb_false_iff, negb_true_iff, IH. done.
Qed.

Lemma break_at_spec p s a b :
  break_at p s = (a, b) ->
  s = a +:+ b
  /\ all (fun c => negb (p c)) a = true
  /\ (b = "" \/ exists c b', b = String c b' /\ p c = true).
Proof.
  revert a b. induction s as [|x s IH]; intros a b; simpl.
  - intros [= <- <-]. auto.
  - destruct (p x) eqn:Px.
    + intros [= <- <-]. split; [done|]. split; [done|]. right. eauto.
    + destruct (break_at p s) as [a' b'] eqn:E. intros [= <- <-].
      destruct (IH _ _ eq_refl) as (-> & Ha & Hb). rewrite str_app_cons.
      simpl. by rewrite Px, Ha.
Qed.

Lemma break_at_app p a b :
  all (fun c => negb (p c)) a = true ->
  (b = "" \/ exists c b', b = String c b' /\ p c = true) ->
  break_at p (a +:+ b) = (a, b).
Proof.
  intros Ha Hb. induction a as [|x a IH].
  - rewrite str_app_nil_l.
    destruct Hb as [->|(c&b'&->&Hc)]; simpl; [done|]. by rewrite Hc.
  - rewrite str_app_cons. simpl in *.
    apply andb_true_iff in Ha as [Hx Ha]. apply negb_true_iff in Hx.
    by rewrite Hx, (IH Ha).
Qed.

Lemma split1_spec c s a b :
  split1 c s = (a, b) ->
  contains c a = false
  /\ (s = a /\ b = "" \/ s = a +:+ String c b).
Proof.
  unfold split1. destruct (break_at (Ascii.eqb c) s) as [a' b'] eqn:E.
  apply break_at_spec in E as (-> & Ha & Hb).
  assert (contains c a' = false) as Hc.
  { apply all_not_contains. eapply all_impl; [|exact Ha].
    intros x. simpl. by rewrite Ascii.eqb_sym. }
  destruct Hb as [->|(x&b''&->&Hx)].
  - intros [= <- <-]. split; [done|]. left. by rewrite str_app_nil_r.
  - intros [= <- <-]. split; [done|]. right.
    by apply Ascii.eqb_eq in Hx as ->.
Qed.

Lemma split1_app c a b :
  contains c a = false -> split1 c (a +:+ String c b) = (a, b).
Proof.
  intros Ha. unfold split1. rewrite break_at_app.
  - done.
  - apply all_not_contains in Ha. eapply all_impl; [|exact Ha].
    intros x. simpl. by rewrite Ascii.eqb_sym.
  - right. exists c, b. by rewrite Ascii.eqb_refl.
Qed.

Lemma split1_absent c a : contains c a = false -> split1 c a = (a, "").
Proof.
  intros Ha. unfold split1.
  rewrite <-(str_app_nil_r a) at 1. rewrite break_at_app.
  - done.
  - apply all_not_contains in Ha. eapply all_impl; [|exact Ha].
    intros x. simpl. by rewrite Ascii.eqb_sym.
  - by left.
Qed.

Lemma startswith_app p s : startswith (p +:+ s) p = true.
Proof.
  unfold startswith. induction p as [|x p IH]; [by destruct s|].
  rewrite str_app_cons. simpl. by destruct (ascii_dec x x).
Qed.

Lemma rbreak_spec c s a b : rbreak c s = (a, b) -> s = a +:+ b.
Proof.
  revert a b. induction s as [|x s IH]; intros a b; simpl.
  - by intros [= <- <-].
  - destruct (contains c s).
    + destruct (rbreak c s) as [a' b'] eqn:E. intros [= <- <-].
      by rewrite str_app_cons, <-(IH _ _ eq_refl).
    + by intros [= <- <-].
Qed.

Lemma keep_app p a b :
  keep p (a +:+ b) = keep p a +:+ keep p b.
Proof.
  induction a as [|x a IH]; [done|]. rewrite str_app_cons. simpl.
  destruct (p x); by rewrite ?str_app_cons, IH.
Qed.

Lemma keep_id p s : all p s = true -> keep p s = s.
Proof.
  induction s as [|x s IH]; simpl; [done|].
  intros [-> Hs]%andb_true_iff. by rewrite (IH Hs).
Qed.

End StringFacts.


(** ** URL parsing and canonical forms *)

Section UrlFacts.
Context `{PyLib}.

Lemma lower_char_scheme c :
  scheme_char c = true -> lower_scheme_char (lower_char c) = true.
Proof.
  destruct c as [[] [] [] [] [] [] [] []]; vm_compute; congruence.
Qed.

Lemma lower_scheme_char_not_hash c :
  lower_scheme_char c = true -> Ascii.eqb c "#" = false.
Proof.
  destruct c as [[] [] [] [] [] [] [] []]; vm_compute; congruence.
Qed.

Lemma lower_scheme pre :
  all scheme_char pre = true ->
  all lower_scheme_char (lower pre) = true.
Proof.
  induction pre as [|x pre IH]; simpl; [done|].
  intros [Hx Hp]%andb_true_iff. by rewrite (lower_char_scheme _ Hx), IH.
Qed.

Lemma lower_scheme_no_hash s :
  all lower_scheme_char s = true -> contains "#" s = false.
Proof.
  intros Hs. apply all_not_contains. eapply all_impl; [|exact Hs].
  intros c Hc. simpl. by rewrite (lower_scheme_char_not_hash _ Hc).
Qed.

Lemma split_scheme_spec url d s rest :
  split_scheme url d = (s, rest) ->
  (s = d \/ all lower_scheme_char s = true)
  /\ exists dropped, url = dropped +:+ rest.
Proof.
  unfold split_scheme. destruct (break_at _ url) as [pre r] eqn:E.
  apply break_at_spec in E as (-> & _ & _).
  destruct pre as [|c pre]; [intros [= <- <-]; split; [by left|by exists ""]|].
  destruct r as [|x r].
  { intros [= <- <-]. split; [by left|by exists ""]. }
  destruct (is_ascii_alpha c && _) eqn:Hc.
  - intros [= <- <-]. apply andb_true_iff in Hc as [_ Hc]. split.
    + right. by apply (lower_scheme (String c pre)).
    + exists (String c pre +:+ String x ""). by rewrite str_app_assoc.
  - intros [= <- <-]. split; [by left|by exists ""].
Qed.

Lemma contains_suffix c a b : contains c (a +:+ b) = false ->
  contains c a = false /\ contains c b = false.
Proof. rewrite contains_app. by intros [? ?]%orb_false_iff. Qed.

Lemma netloc_no_hash a :
  all (fun c => negb (netloc_delim c)) a = true ->
  contains "#" a = false.
Proof.
  intros Ha. apply all_not_contains. eapply all_impl; [|exact Ha].
  intros c. unfold netloc_delim. simpl.
  destruct (Ascii.eqb c "#"); [|done]. by rewrite !orb_true_r.
Qed.

Lemma _splitnetloc2_Some u a b :
  _splitnetloc2 u = Some (a, b) ->
  exists rest, u = "//" +:+ rest /\ break_at netloc_delim rest = (a, b).
Proof.
  unfold _splitnetloc2. destruct u as [|c1 u]; [done|].
  destruct c1 as [[] [] [] [] [] [] [] []]; try done.
  destruct u as [|c2 u]; [done|].
  destruct c2 as [[] [] [] [] [] [] [] []]; try done.
  intros [= E]. by exists u.
Qed.

(** No component kept by [urlsplit] contains [#], and the scheme is the
    default or lower-case. *)
Lemma urlsplit_components url d r :
  urlsplit url d = Ret r ->
  contains "#" (sr_netloc r) = false
  /\ contains "#" (sr_path r) = false
  /\ contains "#" (sr_query r) = false
  /\ (sr_scheme r = remove_unsafe (strip c0_or_space d)
      \/ all lower_scheme_char (sr_scheme r) = true).
Proof.
  unfold urlsplit.
  destruct (split_scheme _ _) as [s u] eqn:Hs.
  apply split_scheme_spec in Hs as [Hs _].
  assert (exists netloc rest,
            match _splitnetloc2 u with
            | Some (netloc, rest) =>
                _ ← check_brackets netloc; Ret (netloc, rest)
            | None => Ret ("", u)
            end = Raise netloc
            \/ match _splitnetloc2 u with
               | Some (netloc, rest) =>
                   _ ← check_brackets netloc; Ret (netloc, rest)
               | None => Ret ("", u)
               end = Ret (netloc, rest)
               /\ contains "#" netloc = false) as (netloc & rest & Hn).
  { destruct (_splitnetloc2 u) as [[a b]|] eqn:E.
    - apply _splitnetloc2_Some in E as (rest & _ & E).
      apply break_at_spec in E as (_ & Ha & _).
      destruct (check_brackets a) as [[]|msg]; cbn.
      + exists a, b. right. split; [done|]. by apply netloc_no_hash.
      + exists msg, "". by left.
    - exists "", u. by right. }
  destruct Hn as [-> | [-> Hnet]]; cbn; [done|].
  destruct (split1 "#" rest) as [u1 frag] eqn:E1.
  destruct (split1 "?" u1) as [p q] eqn:E2.
  apply split1_spec in E1 as [Hu1 _].
  apply split1_spec in E2 as [_ Hq].
  intros [= <-]. simpl. split; [done|].
  destruct Hq as [[-> ->]| ->]; [by auto|].
  apply contains_suffix in Hu1 as [Hp Hq]. simpl in Hq. by auto.
Qed.

Lemma _splitparams_prefix url :
  exists dropped, url = (_splitparams url).1 +:+ dropped.
Proof.
  unfold _splitparams. destruct (rbreak "/" url) as [a b] eqn:E1.
  apply rbreak_spec in E1 as ->.
  destruct (break_at _ b) as [b1 b2] eqn:E2.
  apply break_at_spec in E2 as (-> & _ & _).
  destruct b2 as [|x b2]; simpl.
  - exists "". by rewrite !str_app_nil_r.
  - exists (String x b2). by rewrite str_app_assoc.
Qed.

Lemma urlparse_components url parsed :
  urlparse url = Ret parsed ->
  contains "#" (netloc parsed) = false
  /\ contains "#" (path parsed) = false
  /\ contains "#" (query parsed) = false
  /\ all lower_scheme_char (scheme parsed) = true.
Proof.
  unfold urlparse, urlparse_with.
  destruct (urlsplit url "") as [r|] eqn:E; cbn; [|done].
  apply urlsplit_components in E as (Hn & Hp & Hq & Hs).
  assert (all lower_scheme_char (sr_scheme r) = true) as Hs'.
  { destruct Hs as [->|?]; done. }
  destruct (_ && _).
  - destruct (_splitparams_prefix (sr_path r)) as [dropped Hd].
    destruct (_splitparams (sr_path r)) as [p1 p2]. simpl in Hd.
    intros [= <-]. simpl. rewrite Hd in Hp.
    apply contains_suffix in Hp as [Hp _]. done.
  - intros [= <-]. done.
Qed.

(** Whatever is accepted comes out without a fragment and with a lower-case
    scheme in front of [://]. *)
Lemma normalize_url_shape base cur url n :
  normalize_url base cur url = Ret (Some n) ->
  contains "#" n = false
  /\ exists s rest, n = s +:+ "://" +:+ rest
       /\ all lower_scheme_char s = true.
Proof.
  unfold normalize_url. destruct (_ || _); [done|].
  destruct (if opt_truthy base && _ then _ else _) as [u|]; cbn; [|done].
  destruct (urlparse u) as [parsed|] eqn:E; [|done].
  apply urlparse_components in E as (Hn & Hp & Hq & Hs).
  pose proof (lower_scheme_no_hash _ Hs) as Hs'.
  intros [= <-]. split.
  - destruct (truthy (query parsed));
      rewrite ?contains_app, Hs', Hn, Hp, ?Hq; done.
  - exists (scheme parsed).
    destruct (truthy (query parsed)); eexists; (split; [|done]);
      rewrite ?str_app_assoc; reflexivity.
Qed.


(** ** Absolute [http] and [https] URLs *)

Lemma no_char_elem cs s c :
  no_char cs s = true -> c ∈ cs -> contains c s = false.
Proof.
  unfold no_char. rewrite forallb_forall. intros Hall Hc.
  apply negb_true_iff, Hall. by apply list_elem_of_In.
Qed.

Lemma unsafe_byte_eqb x :
  unsafe_byte x
  = Ascii.eqb x (chr 9) || Ascii.eqb x (chr 13) || Ascii.eqb x (chr 10).
Proof. destruct x as [[] [] [] [] [] [] [] []]; reflexivity. Qed.

Ltac in_list := apply list_elem_of_In; simpl; tauto.

Lemma remove_unsafe_id s :
  no_char tab_cr_lf s = true -> remove_unsafe s = s.
Proof.
  intros Hs. apply keep_id.
  pose proof (no_char_elem _ _ (chr 9) Hs ltac:(in_list)) as H9.
  pose proof (no_char_elem _ _ (chr 13) Hs ltac:(in_list)) as H13.
  pose proof (no_char_elem _ _ (chr 10) Hs ltac:(in_list)) as H10.
  clear Hs. induction s as [|x s IH]; [done|].
  cbn [contains all] in *.
  apply orb_false_iff in H9 as [E9 H9], H13 as [E13 H13], H10 as [E10 H10].
  rewrite unsafe_byte_eqb, E9, E13, E10. simpl. by apply IH.
Qed.

Lemma no_char_app cs1 cs2 s :
  no_char (cs1 ++ cs2) s = no_char cs1 s && no_char cs2 s.
Proof. unfold no_char. by rewrite List.forallb_app. Qed.

Lemma no_delim host :
  contains "/" host = false -> contains "?" host = false ->
  contains "#" host = false ->
  all (fun c => negb (netloc_delim c)) host = true.
Proof.
  induction host as [|x host IH]; simpl; [done|].
  intros [E1 H1]%orb_false_iff [E2 H2]%orb_false_iff [E3 H3]%orb_false_iff.
  unfold netloc_delim. rewrite E1, E2, E3. simpl. by apply IH.
Qed.

Lemma urlsplit_absolute sch host path query fragment d :
  sch = "http" \/ sch = "https" ->
  plain_parts host path query = true ->
  urlsplit (absolute_url sch host path query fragment) d
  = Ret {| sr_scheme := sch; sr_netloc := host; sr_path := path;
           sr_query := default "" query;
           sr_fragment := remove_unsafe (default "" fragment) |}.
Proof.
  intros Hsch Hplain. unfold plain_parts in Hplain.
  rewrite !no_char_app in Hplain.
  apply andb_true_iff in Hplain as [Hplain [Hq Hqu]%andb_true_iff].
  apply andb_true_iff in Hplain as [Hplain [Hp Hpu]%andb_true_iff].
  apply andb_true_iff in Hplain as [[Hh Hhu]%andb_true_iff Hslash].
  pose proof (no_char_elem _ _ "/"%char Hh ltac:(in_list)) as Hh1.
  pose proof (no_char_elem _ _ "?"%char Hh ltac:(in_list)) as Hh2.
  pose proof (no_char_elem _ _ "#"%char Hh ltac:(in_list)) as Hh3.
  pose proof (no_char_elem _ _ "["%char Hh ltac:(in_list)) as Hh4.
  pose proof (no_char_elem _ _ "]"%char Hh ltac:(in_list)) as Hh5.
  pose proof (no_char_elem _ _ "?"%char Hp ltac:(in_list)) as Hp1.
  pose proof (no_char_elem _ _ "#"%char Hp ltac:(in_list)) as Hp2.
  pose proof (no_char_elem _ _ "#"%char Hq ltac:(in_list)) as Hq1.
  set (tail := host +:+ path +:+ part "?" query
               +:+ part "#" (remove_unsafe <$> fragment)).
  assert (remove_unsafe (host +:+ path +:+ part "?" query
                         +:+ part "#" fragment) = tail) as Htail.
  { unfold remove_unsafe, tail. rewrite !keep_app.
    fold (remove_unsafe host) (remove_unsafe path).
    rewrite (remove_unsafe_id host), (remove_unsafe_id path) by done.
    do 2 f_equal. f_equal.
    - destruct query as [q|]; [|done]. simpl.
      fold (remove_unsafe q). by rewrite (remove_unsafe_id q).
    - destruct fragment as [f|]; done. }
  assert (break_at netloc_delim tail
          = (host, path +:+ part "?" query
                   +:+ part "#" (remove_unsafe <$> fragment))) as Hbreak.
  { apply break_at_app; [by apply no_delim|].
    destruct path as [|c path].
    - destruct query as [q|]; [right; by eexists _, _|].
      destruct fragment as [f|]; [right; by eexists _, _|by left].
    - right. simpl in Hslash. exists c. eexists. split; [done|].
      destruct c as [[] [] [] [] [] [] [] []]; done. }
  assert (check_brackets host = Ret tt) as Hbr.
  { unfold check_brackets. by rewrite Hh4, Hh5. }
  assert (split1 "#" (path +:+ part "?" query
                      +:+ part "#" (remove_unsafe <$> fragment))
          = (path +:+ part "?" query, remove_unsafe (default "" fragment)))
    as Hfrag.
  { assert (contains "#" (path +:+ part "?" query) = false) as Hc.
    { rewrite contains_app, Hp2. by destruct query. }
    destruct fragment as [f|]; simpl.
    - rewrite <-str_app_assoc. by apply split1_app.
    - rewrite str_app_nil_r. by apply split1_absent. }
  assert (split1 "?" (path +:+ part "?" query) = (path, default "" query))
    as Hquery.
  { destruct query as [q|]; simpl.
    - by apply split1_app.
    - rewrite str_app_nil_r. by apply split1_absent. }
  assert (exists pre, sch = String "h" pre
            /\ forall t,
                 lstrip c0_or_space (sch +:+ "://" +:+ t) = sch +:+ "://" +:+ t
                 /\ remove_unsafe (sch +:+ "://" +:+ t)
                    = sch +:+ "://" +:+ remove_unsafe t
                 /\ split_scheme (sch +:+ "://" +:+ t)
                      (remove_unsafe (strip c0_or_space d))
                    = (sch, "//" +:+ t)) as (pre & _ & Hprefix).
  { destruct Hsch as [-> | ->]; eexists; (split; [done|]);
      intros t; repeat split; reflexivity. }
  unfold urlsplit, absolute_url.
  destruct (Hprefix (host +:+ path +:+ part "?" query +:+ part "#" fragment))
    as (-> & -> & _).
  destruct (Hprefix tail) as (_ & _ & Hs). rewrite Htail, Hs.
  change (_splitnetloc2 ("//" +:+ tail))
    with (Some (break_at netloc_delim tail)).
  rewrite Hbreak. cbn. rewrite Hbr. cbn. rewrite Hfrag, Hquery. done.
Qed.

Lemma normalize_url_absolute base cur sch host path query fragment :
  sch = "http" \/ sch = "https" ->
  plain_parts host path query = true ->
  normalize_url base cur (absolute_url sch host path query fragment)
  = Ret (Some (canonical sch host path query)).
Proof.
  intros Hsch Hplain. unfold normalize_url.
  assert (truthy (absolute_url sch host path query fragment) = true
          /\ startswith_any (absolute_url sch host path query fragment)
               ["javascript:"; "mailto:"; "tel:"; "#"; "data:"] = false
          /\ startswith_any (absolute_url sch host path query fragment)
               ["http://"; "https://"] = true) as (-> & -> & ->).
  { unfold absolute_url. destruct Hsch as [-> | ->];
      (split; [done|]); (split; [done|]); unfold startswith_any.
    - change ("http" +:+ "://" +:+ ?t) with ("http://" +:+ t).
      cbn [existsb]. by rewrite startswith_app.
    - change ("https" +:+ "://" +:+ ?t) with ("https://" +:+ t).
      cbn [existsb]. rewrite startswith_app. by rewrite orb_true_r. }
  rewrite andb_false_r. cbn.
  unfold urlparse, urlparse_with.
  rewrite (urlsplit_absolute _ _ _ _ _ _ Hsch Hplain). cbn.
  assert (contains ";" path = false) as ->.
  { unfold plain_parts in Hplain. rewrite !no_char_app in Hplain.
    apply andb_true_iff in Hplain as [Hplain _].
    apply andb_true_iff in Hplain as [_ [Hp _]%andb_true_iff].
    apply (no_char_elem _ _ ";"%char Hp). in_list. }
  rewrite andb_false_r. cbn. unfold canonical.
  destruct (truthy (default "" query)); by rewrite ?str_app_assoc, ?str_app_nil_r.
Qed.

(** A canonical form is itself an absolute URL with plain parts, so
    normalising it again changes nothing. *)
Lemma normalize_url_absolute_idempotent base cur sch host path query fragment :
  sch = "http" \/ sch = "https" ->
  plain_parts host path query = true ->
  (n ← normalize_url base cur (absolute_url sch host path query fragment);
   normalize_url base cur (default "" n))
  = normalize_url base cur (absolute_url sch host path query fragment).
Proof.
  intros Hsch Hplain. rewrite (normalize_url_absolute _ _ _ _ _ _ _ Hsch Hplain).
  cbn. destruct query as [[|c q]|].
  - change (canonical sch host path (Some ""))
      with (absolute_url sch host path None None).
    by rewrite (normalize_url_absolute _ _ _ _ _ None None Hsch).
  - change (canonical sch host path (Some (String c q)))
      with (sch +:+ "://" +:+ host +:+ path +:+ "?" +:+ String c q).
    rewrite <-(str_app_nil_r (String c q)) at 1.
    change (sch +:+ "://" +:+ host +:+ path +:+ "?" +:+ String c q +:+ "")
      with (absolute_url sch host path (Some (String c q)) None).
    by rewrite (normalize_url_absolute _ _ _ _ _ _ None Hsch Hplain).
  - change (canonical sch host path None)
      with (absolute_url sch host path None None).
    by rewrite (normalize_url_absolute _ _ _ _ _ None None Hsch).
Qed.

End UrlFacts.

(** [C4], as the code has it: whatever [normalize_url] accepts comes out
    without a fragment and with a lower-case scheme in front of [://]; and
    an absolute [http] or [https] URL with plain parts comes out as its own
    text up to the fragment: host, path and query are kept verbatim, in the
    case they were written in (the host is not lower-cased), and only the
    [?] of an empty query is dropped. *)
Theorem canonical_form_keeps_host_path_query `{PyLib}
    base cur url n sch host path query fragment :
  normalize_url base cur url = Ret (Some n) ->
  sch = "http" \/ sch = "https" ->
  plain_parts host path query = true ->
  (contains "#" n = false
   /\ exists s rest, n = s +:+ "://" +:+ rest
        /\ all lower_scheme_char s = true)
  /\ normalize_url base cur (absolute_url sch host path query fragment)
     = Ret (Some (canonical sch host path query)).
Proof.
  intros Hn Hsch Hplain. split.
  - by apply (normalize_url_shape base cur url).
  - by apply normalize_url_absolute.
Qed.

Lemma canonical_form_keeps_host_path_query_witness :
  (contains "#" "http://A.COM/Path?Q=1" = false
   /\ exists s rest, "http://A.COM/Path?Q=1" = s +:+ "://" +:+ rest
        /\ all lower_scheme_char s = true)
  /\ @normalize_url permissive None "http://a.com/"
       (absolute_url "http" "A.COM" "/Path" (Some "Q=1") (Some "Frag"))
     = Ret (Some (canonical "http" "A.COM" "/Path" (Some "Q=1"))).
Proof.
  apply (@canonical_form_keeps_host_path_query permissive None
           "http://a.com/" "HTTP://A.COM/Path?Q=1#Frag").
  - vm_compute. reflexivity.
  - left. reflexivity.
  - vm_compute. reflexivity.
Defined.

(** [C4] as stated fails: the host of an accepted URL keeps its upper-case
    letters. *)
Lemma host_is_not_lower_cased :
  @normalize_url permissive None "http://a.com/" "HTTP://A.COM/Path?Q=1#Frag"
  = Ret (Some "http://A.COM/Path?Q=1")
  /\ @urlparse permissive "http://A.COM/Path?Q=1"
     = Ret {| scheme := "http"; netloc := "A.COM"; path := "/Path";
              params := ""; query := "Q=1"; fragment := "" |}
  /\ lower "A.COM" <> "A.COM".
Proof. repeat split; vm_compute; congruence. Qed.

(** [C5]: the pseudo-scheme test of [normalize_url] is case-sensitive and
    the URL parser lower-cases the scheme, so [JavaScript:void(0)] is
    accepted, and its canonical form is rejected when normalised again;
    canonicalisation is not idempotent there.  The two URLs that differ in
    their fragment do come out the same. *)
Theorem mixed_case_pseudo_scheme_breaks_idempotence `{PyLib} :
  normalize_url None "http://a.com/" "JavaScript:void(0)"
  = Ret (Some "javascript://void(0)")
  /\ normalize_url None "http://a.com/" "javascript://void(0)" = Ret None
  /\ normalize_url None "http://a.com/" "http://a.com/x#frag"
     = Ret (Some "http://a.com/x")
  /\ normalize_url None "http://a.com/" "http://a.com/x"
     = Ret (Some "http://a.com/x").
Proof. repeat split; reflexivity. Qed.

(** ** Link extraction *)

Section MapFacts.
Context `{PyLib}.

Lemma add_links_app base cur pat xs ys s :
  add_links base cur pat (xs ++ ys) s
  = s' ← add_links base cur pat xs s; add_links base cur pat ys s'.
Proof.
  revert s. induction xs as [|x xs IH]; intros s; simpl; [done|].
  destruct (normalize_url base cur x) as [[u|]|msg]; cbn; [|done..].
  destruct (truthy u); [|done]. by destruct (_ && _).
Qed.

Lemma add_links_elem base cur pat attrs s s' :
  add_links base cur pat attrs s = Ret s' ->
  forall l, l ∈ s' <->
    l ∈ s \/ exists attr, attr ∈ attrs
              /\ normalize_url base cur attr = Ret (Some l)
              /\ truthy l = true /\ passes pat l.
Proof.
  revert s. induction attrs as [|a attrs IH]; intros s; simpl.
  - intros [= <-] l. split; [by left|]. intros [?|(?&Hin&_)]; [done|].
    by apply elem_of_nil in Hin.
  - destruct (normalize_url base cur a) as [[u|]|msg] eqn:E; cbn; [| |done].
    + destruct (truthy u) eqn:Hu.
      * destruct (_ && _) eqn:Hp.
        -- intros Hs l. rewrite (IH _ Hs l). split.
           ++ intros [?|(attr&?&?&?&?)]; [by left|]. right. exists attr.
              split; [by right|done].
           ++ intros [?|(attr&Hin&Hn&Ht&Hpass)]; [by left|].
              apply elem_of_cons in Hin as [->|Hin].
              ** rewrite E in Hn. injection Hn as ->. unfold passes in Hpass.
                 congruence.
              ** right. by exists attr.
        -- intros Hs l. rewrite (IH _ Hs l). split.
           ++ intros [Hl|(attr&?&?&?&?)].
              ** apply elem_of_union in Hl as [Hl|Hl]; [|by left].
                 apply elem_of_singleton in Hl as ->. right. exists a.
                 split; [by left|done].
              ** right. exists attr. split; [by right|done].
           ++ intros [?|(attr&Hin&Hn&Ht&Hpass)];
                [left; apply elem_of_union; by right|].
              apply elem_of_cons in Hin as [->|Hin].
              ** rewrite E in Hn. injection Hn as ->. left.
                 apply elem_of_union. left. by apply elem_of_singleton.
              ** right. by exists attr.
      * intros Hs l. rewrite (IH _ Hs l). split.
        -- intros [?|(attr&?&?&?&?)]; [by left|]. right. exists attr.
           split; [by right|done].
        -- intros [?|(attr&Hin&Hn&Ht&Hpass)]; [by left|].
           apply elem_of_cons in Hin as [->|Hin].
           ++ rewrite E in Hn. injection Hn as ->. congruence.
           ++ right. by exists attr.
    + intros Hs l. rewrite (IH _ Hs l). split.
      * intros [?|(attr&?&?&?&?)]; [by left|]. right. exists attr.
        split; [by right|done].
      * intros [?|(attr&Hin&Hn&Ht&Hpass)]; [by left|].
        apply elem_of_cons in Hin as [->|Hin].
        -- rewrite E in Hn. done.
        -- right. by exists attr.
Qed.

(** The loop raises exactly when normalising one of the values does. *)
Lemma add_links_raises base cur pat attrs s :
  (exists msg, add_links base cur pat attrs s = Raise msg)
  <-> exists attr msg, attr ∈ attrs /\ normalize_url base cur attr = Raise msg.
Proof.
  revert s. induction attrs as [|a attrs IH]; intros s; simpl.
  - split; [by intros [? ?]|]. intros (?&?&Hin&_). by apply elem_of_nil in Hin.
  - destruct (normalize_url base cur a) as [[u|]|msg] eqn:E; cbn.
    + assert ((exists attr msg, attr ∈ a :: attrs
                 /\ normalize_url base cur attr = Raise msg)
              <-> exists attr msg, attr ∈ attrs
                    /\ normalize_url base cur attr = Raise msg) as ->.
      { split; intros (attr&msg&Hin&Hn); exists attr, msg.
        - apply elem_of_cons in Hin as [->|Hin]; [congruence|done].
        - split; [by right|done]. }
      destruct (truthy u); [destruct (_ && _)|]; apply IH.
    + assert ((exists attr msg, attr ∈ a :: attrs
                 /\ normalize_url base cur attr = Raise msg)
              <-> exists attr msg, attr ∈ attrs
                    /\ normalize_url base cur attr = Raise msg) as ->.
      { split; intros (attr&msg&Hin&Hn); exists attr, msg.
        - apply elem_of_cons in Hin as [->|Hin]; [congruence|done].
        - split; [by right|done]. }
      apply IH.
    + split; [|by eauto]. intros _. exists a, msg. split; [by left|done].
Qed.


(** The loops of [Map] are one pass over [link_attributes]. *)
Lemma Map_loops base pat (inc : bool) page :
  (links ← add_links base (current_url page) pat (a_hrefs (soup page)) ∅;
   (if inc then
      links ← add_links base (current_url page) pat
                (img_srcs (soup page)) links;
      links ← add_links base (current_url page) pat
                (stylesheet_hrefs (soup page)) links;
      add_links base (current_url page) pat (script_srcs (soup page)) links
    else Ret links))
  = add_links base (current_url page) pat (link_attributes inc (soup page)) ∅.
Proof.
  unfold link_attributes. cbn zeta. rewrite add_links_app.
  destruct (add_links _ _ _ (a_hrefs _) _) as [s|]; cbn; [|done].
  destruct inc; [|done]. rewrite !add_links_app.
  destruct (add_links _ _ _ (img_srcs _) _) as [s1|]; cbn; [|done]. by rewrite add_links_app.
Qed.




Lemma elem_of_sorted s l : l ∈ sorted s <-> l ∈ s.
Proof.
  unfold sorted. rewrite merge_sort_Permutation. apply elem_of_elements.
Qed.






End MapFacts.

(** ** Metadata *)

Section Meta.
Context `{PyLib}.
#[local] Arguments mem : simpl never.

Lemma mem_true k l : mem k l = true <-> k ∈ l.
Proof.
  unfold mem. rewrite existsb_exists. split.
  - intros (x & Hin & Hx). apply String.eqb_eq in Hx as ->.
    by apply list_elem_of_In.
  - intros Hin. exists k. split; [by apply list_elem_of_In|apply String.eqb_refl].
Qed.

Lemma add_meta_lookup meta m0 :
  lists_only m0 ->
  exists m, add_meta meta m0 = Ret m /\ lists_only m
            /\ forall k, m !! k = after_metas m0 [meta] k.
Proof.
  intros Hwf. unfold add_meta, after_metas, occurrences. simpl.
  destruct (truthy (meta_key meta)) eqn:Hk; simpl.
  2:{ exists m0. split; [done|]. split; [done|]. intros k.
      rewrite andb_false_r. simpl. by destruct (mem k multi_valued). }
  destruct (truthy (meta_text meta)) eqn:Hc; simpl.
  2:{ exists m0. split; [done|]. split; [done|]. intros k.
      rewrite andb_false_r. simpl. by destruct (mem k multi_valued). }
  destruct (mem (meta_key meta) multi_valued) eqn:Hm.
  - destruct (Hwf _ Hm) as [Hn|[l Hl]].
    + rewrite Hn, lookup_insert_eq. eexists. split; [done|]. split.
      * intros k Hk'. destruct (decide (meta_key meta = k)) as [<-|Hne].
        -- right. rewrite lookup_insert_eq. eauto.
        -- rewrite !lookup_insert_ne by done. by apply Hwf.
      * intros k. destruct (decide (meta_key meta = k)) as [<-|Hne].
        -- rewrite lookup_insert_eq, Hm, String.eqb_refl, Hn. done.
        -- rewrite !lookup_insert_ne by done.
           apply String.eqb_neq in Hne. rewrite Hne. simpl.
           by destruct (mem k multi_valued).
    + rewrite Hl; simpl; rewrite Hl. eexists. split; [done|]. split.
      * intros k Hk'. destruct (decide (meta_key meta = k)) as [<-|Hne].
        -- right. rewrite lookup_insert_eq. eauto.
        -- rewrite !lookup_insert_ne by done. by apply Hwf.
      * intros k. destruct (decide (meta_key meta = k)) as [<-|Hne].
        -- rewrite lookup_insert_eq, Hm, String.eqb_refl, Hl. done.
        -- rewrite !lookup_insert_ne by done.
           apply String.eqb_neq in Hne. rewrite Hne. simpl.
           by destruct (mem k multi_valued).
  - eexists. split; [done|]. split.
    + intros k Hk'. destruct (decide (meta_key meta = k)) as [<-|Hne].
      * congruence.
      * rewrite lookup_insert_ne by done. by apply Hwf.
    + intros k. destruct (decide (meta_key meta = k)) as [<-|Hne].
      * rewrite lookup_insert_eq, Hm, String.eqb_refl. done.
      * rewrite lookup_insert_ne by done.
        apply String.eqb_neq in Hne. rewrite Hne. simpl.
        by destruct (mem k multi_valued).
Qed.

Lemma occurrences_cons name meta ms :
  occurrences name (meta :: ms) = occurrences name [meta] ++ occurrences name ms.
Proof.
  unfold occurrences. simpl. by destruct (_ && _).
Qed.

Lemma after_metas_cons m0 m1 meta ms k :
  (forall k, m1 !! k = after_metas m0 [meta] k) ->
  after_metas m1 ms k = after_metas m0 (meta :: ms) k.
Proof.
  intros Hm1. unfold after_metas. rewrite (occurrences_cons k meta ms).
  specialize (Hm1 k). unfold after_metas in Hm1. rewrite Hm1.
  destruct (mem k multi_valued).
  - destruct (occurrences k [meta]) as [|c cs] eqn:E1; simpl; [done|].
    destruct (occurrences k ms) as [|d ds] eqn:E2; simpl.
    + rewrite app_nil_r. by destruct (m0 !! k) as [[]|].
    + destruct (m0 !! k) as [[]|]; try done. by rewrite <-app_assoc.
  - destruct (occurrences k ms) as [|d ds] eqn:E2 using rev_ind.
    + by rewrite app_nil_r.
    + by rewrite app_assoc, !last_snoc.
Qed.

Lemma add_metas_lookup ms m0 :
  lists_only m0 ->
  exists m, add_metas ms m0 = Ret m /\ forall k, m !! k = after_metas m0 ms k.
Proof.
  revert m0. induction ms as [|meta ms IH]; intros m0 Hwf; simpl.
  - exists m0. split; [done|]. intros k. unfold after_metas, occurrences. simpl.
    by destruct (mem k multi_valued).
  - destruct (add_meta_lookup meta m0 Hwf) as (m1 & -> & Hwf1 & Hm1). cbn.
    destruct (IH m1 Hwf1) as (m & -> & Hm). exists m. split; [done|].
    intros k. rewrite Hm. by apply after_metas_cons.
Qed.


Lemma setdefault_lookup (m : gmap string MetaValue) key v k x :
  m !! k = Some x ->
  match m !! key with None => <[key := v]> m | Some _ => m end !! k = Some x.
Proof.
  intros Hk. destruct (m !! key) eqn:E; [done|].
  rewrite lookup_insert_ne; [done|]. intros ->. congruence.
Qed.

Lemma setdefault_lookup_ne (m : gmap string MetaValue) key v k :
  key <> k ->
  match m !! key with None => <[key := v]> m | Some _ => m end !! k = m !! k.
Proof.
  intros Hk. destruct (m !! key) eqn:E; [done|]. by rewrite lookup_insert_ne.
Qed.

Lemma initial_tags_lists_only page uuid lang :
  lists_only (initial_tags page uuid lang).
Proof.
  intros k Hk. left. apply mem_true in Hk. unfold multi_valued in Hk.
  unfold initial_tags.
  repeat (apply elem_of_cons in Hk as [->|Hk]; [by vm_compute|]).
  by apply elem_of_nil in Hk.
Qed.

Lemma extract_meta_tags_lookup page uuid lang :
  html_lang (soup page) = Some lang ->
  exists tags, extract_meta_tags page uuid = Ret tags
    /\ (forall k v, k <> "favicon" -> k <> "title" ->
          after_metas (initial_tags page uuid (default "en-US" lang))
            (metas (soup page)) k = Some v ->
          tags !! k = Some v).
Proof.
  intros Hlang. unfold extract_meta_tags. rewrite Hlang. cbn.
  destruct (add_metas_lookup (metas (soup page))
              (initial_tags page uuid (default "en-US" lang))
              (initial_tags_lists_only _ _ _)) as (m & Hm & Hlook).
  unfold initial_tags in Hm. rewrite Hm. cbn. eexists. split; [done|].
  intros k v Hf Ht Hv. rewrite <-Hlook in Hv.
  apply setdefault_lookup, setdefault_lookup.
  set (m1 := match match link_icon (soup page) with
                   | Some href => Some href
                   | None => link_shortcut_icon (soup page)
                   end with
             | Some (Some href) =>
                 if truthy href then <["favicon":=MStr href]> m else m
             | _ => m
             end).
  assert (m1 !! k = Some v) as H1.
  { unfold m1. repeat case_match; try done; by rewrite lookup_insert_ne. }
  set (m2 := match title_text (soup page) with
             | Some t => <["title":=MStr t]> m1
             | None => m1
             end).
  assert (m2 !! k = Some v) as H2.
  { unfold m2. case_match; [by rewrite lookup_insert_ne|done]. }
  repeat case_match; try done.
  rewrite lookup_insert_ne; [done|]. intros <-. congruence.
Qed.

(** [C8]: on a page with an [<html>] element the metadata is built, a
    multi-valued key is bound to the list of all its contents in document
    order (two [og:image] elements give a two-element list), and any other
    key, [title] and [favicon] apart which are set from the page afterwards,
    is bound to its last content. *)
Theorem multi_valued_meta_keys_accumulate page uuid lang :
  html_lang (soup page) = Some lang ->
  exists tags, extract_meta_tags page uuid = Ret tags
    /\ (forall c1 c2,
          occurrences "og:image" (metas (soup page)) = [c1; c2] ->
          tags !! "og:image" = Some (MList [c1; c2]))
    /\ (forall k c cs,
          k ∈ multi_valued ->
          occurrences k (metas (soup page)) = c :: cs ->
          tags !! k = Some (MList (c :: cs)))
    /\ (forall k c,
          k ∉ multi_valued -> k <> "title" -> k <> "favicon" ->
          last (occurrences k (metas (soup page))) = Some c ->
          tags !! k = Some (MStr c)).
Proof.
  intros Hlang.
  destruct (extract_meta_tags_lookup page uuid lang Hlang) as (tags & Ht & Hl).
  exists tags. split; [done|].
  assert (forall k c cs, k ∈ multi_valued ->
            occurrences k (metas (soup page)) = c :: cs ->
            tags !! k = Some (MList (c :: cs))) as Hmulti.
  { intros k c cs Hk Hocc.
    assert (k <> "favicon" /\ k <> "title") as [??].
    { apply mem_true in Hk as Hk0. split; intros ->; vm_compute in Hk0; discriminate. }
    apply Hl; [done..|]. unfold after_metas.
    apply mem_true in Hk as Hk'. rewrite Hk', Hocc.
    destruct (initial_tags_lists_only page uuid (default "en-US" lang) k Hk')
      as [->|[l Hl']]; [done|].
    exfalso. revert Hl'. unfold initial_tags, multi_valued in *.
    repeat (apply elem_of_cons in Hk as [->|Hk]; [by vm_compute|]).
    by apply elem_of_nil in Hk. }
  split; [|split].
  - intros c1 c2. apply Hmulti. unfold multi_valued. set_solver.
  - exact Hmulti.
  - intros k c Hk Htitle Hfav Hlast. apply Hl; [done..|].
    unfold after_metas. rewrite Hlast.
    destruct (mem k multi_valued) eqn:E; [|done].
    apply mem_true in E. done.
Qed.

End Meta.

(** ** Screenshots and markdown *)

Section Screenshot_facts.
Import Screenshot.

Lemma startswith_inv p s :
  startswith s p = true -> exists rest, s = p +:+ rest.
Proof.
  unfold startswith. revert s. induction p as [|a p IH]; intros s.
  - intros _. by exists s.
  - destruct s as [|b s]; simpl; [done|].
    destruct (ascii_dec a b) as [<-|]; [|done].
    intros [rest ->]%IH. by exists rest.
Qed.

Lemma png_data_holds_nul data :
  startswith data png_header = true -> contains (chr 0) data = true.
Proof.
  intros [rest ->]%startswith_inv. by rewrite contains_app.
Qed.

(** The loop with an opener that accepts what the driver returns: every
    offset is captured and pasted, and the image keeps its size. *)
Lemma capture_loop_accepting opener driver ys full calls :
  (forall fp, exists viewport, opener fp = Ret viewport) ->
  capture_loop opener driver ys full calls
  = (calls ++ flat_map
                (fun y => [ScrollTo 0 y; Sleep500ms; GetScreenshotAsPng]) ys,
     Ret {| size := size full;
            pasted := pasted full ++ map (fun y => (0, y)) ys |}).
Proof.
  intros Hopen. revert full calls.
  induction ys as [|y ys IH]; intros full calls; simpl.
  - rewrite !app_nil_r. by destruct full.
  - destruct (Hopen (get_screenshot_as_png driver y)) as [viewport ->].
    rewrite IH. simpl. by rewrite <-!app_assoc.
Qed.

(** With such an opener the page of height 1000 seen through a viewport of
    height 400 is captured three times, at 0, 400 and 800, into an image of
    the size of the page. *)
Lemma stitching_1000_by_400 opener driver :
  (forall fp, exists viewport, opener fp = Ret viewport) ->
  scrollHeight driver = 1000 -> innerHeight driver = 400 ->
  0 <= scrollWidth driver ->
  exists calls im,
    capture_full_page_with opener driver = (calls, Ret im)
    /\ captures calls = 3%nat
    /\ scroll_offsets calls = [0; 400; 800]
    /\ pasted im = [(0, 0); (0, 400); (0, 800)]
    /\ size im = (scrollWidth driver, 1000).
Proof.
  intros Hopen Hh Hv Hw. unfold capture_full_page_with, Image_new.
  rewrite Hh, Hv. cbn [fst snd].
  replace (scrollWidth driver <? 0) with false by lia.
  change (range 0 1000 400) with (Ret [0; 400; 800]).
  change (false || (1000 <? 0)) with false. cbv iota.
  rewrite (capture_loop_accepting _ _ _ _ _ Hopen).
  do 2 eexists. split; [reflexivity|]. by repeat split.
Qed.

(** [C9]: the loop hands the PNG [bytes] of the first capture to
    [Image.open], which takes them for a file name and raises; the capture
    ends there, after one screenshot at offset 0 instead of three, and no
    stitched image comes out. *)
Theorem capture_full_page_stops_at_first_viewport open_file driver :
  (forall y, startswith (get_screenshot_as_png driver y) png_header = true) ->
  scrollHeight driver = 1000 -> innerHeight driver = 400 ->
  0 <= scrollWidth driver ->
  capture_full_page open_file driver
  = ([ScrollTo 0 0; Sleep500ms; GetScreenshotAsPng],
     Raise "embedded null byte")
  /\ captures (capture_full_page open_file driver).1 = 1%nat.
Proof.
  intros Hpng Hh Hv Hw.
  assert (capture_full_page open_file driver
          = ([ScrollTo 0 0; Sleep500ms; GetScreenshotAsPng],
             Raise "embedded null byte")) as ->; [|done].
  unfold capture_full_page, capture_full_page_with, Image_new.
  rewrite Hh, Hv. cbn [fst snd].
  replace (scrollWidth driver <? 0) with false by lia.
  change (range 0 1000 400) with (Ret [0; 400; 800]).
  change (false || (1000 <? 0)) with false. cbv iota.
  cbn [capture_loop]. unfold Image_open.
  by rewrite (png_data_holds_nul _ (Hpng 0)).
Qed.

Lemma capture_full_page_stops_at_first_viewport_witness :
  capture_full_page (fun _ => Raise "No such file or directory")
    {| scrollHeight := 1000; scrollWidth := 1280; innerHeight := 400;
       get_screenshot_as_png := fun _ => png_header +:+ "..." |}
  = ([ScrollTo 0 0; Sleep500ms; GetScreenshotAsPng],
     Raise "embedded null byte")
  /\ captures
       (capture_full_page (fun _ => Raise "No such file or directory")
          {| scrollHeight := 1000; scrollWidth := 1280; innerHeight := 400;
             get_screenshot_as_png := fun _ => png_header +:+ "..." |}).1
     = 1%nat.
Proof.
  apply capture_full_page_stops_at_first_viewport.
  - intros y. reflexivity.
  - reflexivity.
  - reflexivity.
  - simpl. lia.
Defined.

End Screenshot_facts.

Section Markdown.
Import PyStr.
Lemma rstrip_idem p s : rstrip p (rstrip p s) = rstrip p s.
Proof.
  induction s as [|x s IH]; simpl; [done|].
  destruct (rstrip p s) as [|y r] eqn:E.
  - destruct (p x) eqn:Px; simpl; [done|]. by rewrite Px.
  - simpl in *. by rewrite IH.
Qed.

(** [C6] as stated fails: the output does not end in a newline. *)
Lemma markdown_of_one_headline_has_no_newline :
  _json_to_markdown doc_hi <> "# **Hi**" +:+ nl.
Proof. vm_compute. discriminate. Qed.

(** [C6], as the code has it: the document with the one headline renders
    to the heading line alone, and no rendering ends in white space. *)
Theorem markdown_of_one_headline :
  _json_to_markdown doc_hi = "# **Hi**"
  /\ forall data, rstrip isspace (_json_to_markdown data) = _json_to_markdown data.
Proof.
  split; [reflexivity|]. intros data. unfold _json_to_markdown, strip.
  apply rstrip_idem.
Qed.
End Markdown.

(** ** The theorems above at concrete pages *)


Lemma multi_valued_meta_keys_accumulate_witness :
  exists tags,
    @extract_meta_tags two_images "0f8fad5b" = Ret tags
    /\ tags !! "og:image" = Some (MList ["a.png"; "b.png"])
    /\ tags !! "description" = Some (MStr "two").
Proof.
  destruct (multi_valued_meta_keys_accumulate two_images "0f8fad5b" None)
    as (tags & Ht & Himg & _ & Hlast).
  - reflexivity.
  - exists tags. split; [exact Ht|]. split.
    + apply Himg. reflexivity.
    + apply Hlast.
      * unfold multi_valued. intros Hin. apply list_elem_of_In in Hin.
        simpl in Hin. intuition discriminate.
      * discriminate.
      * discriminate.
      * reflexivity.
Defined.

(** ** The crawl *)

Section CrawlFacts.
Context `{PyLib}.
Variable visit : string -> option (list Action) -> Visit.
Variable own_browser : exc Page.
Variable output_formats : list string.
Variable max_depth : Z.
Variable follow_subdomains : bool.
Variable actions_per_url : option (gmap string (list Action)).

Abbreviation step := (step visit own_browser output_formats max_depth
                    follow_subdomains actions_per_url).
Abbreviation loop := (loop visit own_browser output_formats max_depth
                    follow_subdomains actions_per_url).
Abbreviation crawl_run := (crawl_run visit own_browser output_formats max_depth
                         follow_subdomains actions_per_url).
Abbreviation reachable := (reachable visit own_browser output_formats max_depth
                         follow_subdomains actions_per_url).
Abbreviation offer := (offer follow_subdomains).
Abbreviation weight := (Frontier.weight visit own_browser output_formats
                          actions_per_url).
Abbreviation entry_weight := (Frontier.entry_weight visit own_browser
                                output_formats max_depth actions_per_url).
Abbreviation queue_weight := (Frontier.queue_weight visit own_browser
                                output_formats max_depth actions_per_url).
Abbreviation admitted := (Frontier.admitted follow_subdomains).
Abbreviation invariant := (Frontier.invariant follow_subdomains).

Lemma offer_spec base_domain seen depth links queue queue' :
  offer base_domain seen depth links queue = Ret queue' ->
  exists adm, queue' = queue ++ map (fun l => (l, depth + 1)) adm
    /\ adm `sublist_of` links
    /\ Forall (admitted base_domain seen) adm.
Proof.
  revert queue. induction links as [|link links IH]; intros queue; simpl.
  - intros [= <-]. exists []. by rewrite app_nil_r.
  - destruct (urlparse link) as [parsed|] eqn:Hp; cbn; [|done].
    destruct (startswith (scheme parsed) "http") eqn:Hs; simpl.
    2:{ intros Hr. destruct (IH _ Hr) as (adm&?&?&?). exists adm.
        split; [done|]. split; [by constructor|done]. }
    destruct (negb follow_subdomains && _) eqn:Hf.
    { intros Hr. destruct (IH _ Hr) as (adm&?&?&?). exists adm.
      split; [done|]. split; [by constructor|done]. }
    case_bool_decide as Hseen.
    + intros Hr. destruct (IH _ Hr) as (adm&->&?&?). exists (link :: adm).
      split; [by rewrite <-app_assoc|]. split; [by constructor|].
      constructor; [|done]. split; [done|]. exists parsed.
      split; [done|]. split; [done|]. intros ->. simpl in Hf.
      apply negb_false_iff in Hf. by apply String.eqb_eq in Hf.
    + intros Hr. destruct (IH _ Hr) as (adm&?&?&?). exists adm.
      split; [done|]. split; [by constructor|done].
Qed.

(** What one iteration does to the state. *)
Lemma step_spec base_domain st st' :
  step base_domain st = Ret (Some st') ->
  exists url depth rest,
    queue st = (url, depth) :: rest
    /\ popped st' = popped st ++ [(url, depth)]
    /\ (((url ∈ seen st) \/ max_depth < depth)
        /\ queue st' = rest /\ seen st' = seen st
        /\ results st' = results st /\ crawled st' = crawled st
        \/ ((url ∉ seen st) /\ depth <= max_depth)
           /\ seen st' = {[url]} ∪ seen st
           /\ crawled st' = crawled st ++ [(url, depth)]
           /\ results st'
              = <[url := scrape visit url output_formats
                           (actions_for actions_per_url url)]> (results st)
           /\ exists adm,
                queue st' = rest ++ map (fun l => (l, depth + 1)) adm
                /\ adm `sublist_of`
                     links_of own_browser url
                       (scrape visit url output_formats
                          (actions_for actions_per_url url))
                /\ (adm = [] \/ depth < max_depth)
                /\ Forall (admitted base_domain ({[url]} ∪ seen st)) adm).
Proof.
  unfold Crawl.step. destruct (queue st) as [|[url depth] rest] eqn:Hq; [done|].
  destruct (bool_decide (url ∈ seen st) || (max_depth <? depth)) eqn:Hskip.
  - intros [= <-]. exists url, depth, rest. split; [done|]. split; [done|].
    left. split; [|done]. apply orb_true_iff in Hskip as [Hs|Hd].
    + left. by apply bool_decide_eq_true in Hs.
    + right. lia.
  - apply orb_false_iff in Hskip as [Hs Hd].
    apply bool_decide_eq_false in Hs. apply Z.ltb_ge in Hd.
    destruct (depth <? max_depth) eqn:Hlt.
    + destruct (Crawl.offer _ _ _ _ _ _) as [q|] eqn:Ho; cbn; [|done].
      intros [= <-]. exists url, depth, rest. split; [done|]. split; [done|].
      right. split; [done|]. simpl. do 3 (split; [done|]).
      apply offer_spec in Ho as (adm&->&?&?). exists adm.
      split; [done|]. split; [done|]. split; [right; lia|done].
    + cbn. intros [= <-]. exists url, depth, rest. split; [done|].
      split; [done|]. right. split; [done|]. simpl. do 3 (split; [done|]).
      exists []. rewrite app_nil_r. split; [done|].
      split; [apply sublist_nil_l|]. split; [by left|constructor].
Qed.

Lemma step_done base_domain st :
  step base_domain st = Ret None <-> queue st = [].
Proof.
  unfold Crawl.step. destruct (queue st) as [|[url depth] rest]; [done|].
  split; [|done]. destruct (_ || _); [done|].
  destruct (depth <? max_depth); [|done].
  by destruct (Crawl.offer _ _ _ _ _ _).
Qed.

(** ** Termination *)

Lemma weight_pos budget url : (1 <= weight budget url)%nat.
Proof. destruct budget; simpl; lia. Qed.

Lemma list_sum_sublist (f : string -> nat) l1 l2 :
  l1 `sublist_of` l2 -> (list_sum (map f l1) <= list_sum (map f l2))%nat.
Proof. induction 1; simpl; lia. Qed.

Lemma queue_weight_app q1 q2 :
  queue_weight (q1 ++ q2) = (queue_weight q1 + queue_weight q2)%nat.
Proof. unfold Frontier.queue_weight. by rewrite map_app, list_sum_app. Qed.

Lemma step_decreases base_domain st st' :
  step base_domain st = Ret (Some st') ->
  (queue_weight (queue st') < queue_weight (queue st))%nat.
Proof.
  intros Hs. apply step_spec in Hs as (url&depth&rest&Hq&_&Hcase).
  rewrite Hq. change ((url, depth) :: rest) with ([(url, depth)] ++ rest).
  rewrite queue_weight_app.
  assert (queue_weight [(url, depth)] = entry_weight (url, depth)) as ->.
  { unfold Frontier.queue_weight. simpl. lia. }
  destruct Hcase as [(_&->&_)|(_&_&_&_&adm&->&Hsub&Hadm&_)].
  - pose proof (weight_pos (Z.to_nat (max_depth + 1 - depth)) url).
    unfold Frontier.entry_weight. simpl. lia.
  - rewrite queue_weight_app.
    destruct Hadm as [->|Hlt].
    { pose proof (weight_pos (Z.to_nat (max_depth + 1 - depth)) url).
      unfold Frontier.entry_weight, Frontier.queue_weight. simpl. lia. }
    unfold Frontier.entry_weight. simpl.
    replace (Z.to_nat (max_depth + 1 - depth))
      with (S (Z.to_nat (max_depth + 1 - (depth + 1)))) by lia.
    simpl.
    apply (list_sum_sublist (weight (Z.to_nat (max_depth + 1 - (depth + 1)))))
      in Hsub.
    assert (queue_weight (map (fun l => (l, depth + 1)) adm)
            = list_sum (map (weight (Z.to_nat (max_depth + 1 - (depth + 1))))
                          adm)) as ->.
    { unfold Frontier.queue_weight. rewrite map_map. done. }
    lia.
Qed.

Lemma loop_terminates fuel base_domain st :
  (queue_weight (queue st) < fuel)%nat ->
  exists r, loop fuel base_domain st = Some r
    /\ forall st', r = Ret st' -> queue st' = [].
Proof.
  revert st. induction fuel as [|fuel IH]; intros st Hw; [lia|]. simpl.
  destruct (step base_domain st) as [[st'|]|msg] eqn:Hs.
  - apply IH. apply step_decreases in Hs. lia.
  - eexists. split; [done|]. intros ? [= <-]. by apply step_done in Hs.
  - eexists. split; [done|]. done.
Qed.

Lemma crawl_terminates start_url :
  exists fuel r, crawl_run fuel start_url = Some r
    /\ forall st, r = Ret st -> queue st = [].
Proof.
  unfold Crawl.crawl_run.
  destruct (urlparse start_url) as [parsed|msg].
  - exists (S (queue_weight [(start_url, 0)])).
    apply loop_terminates. simpl. lia.
  - exists O. eexists. split; [done|]. done.
Qed.


(** ** Invariants of the loop *)

Lemma invariant_initial start_url base_domain :
  invariant start_url base_domain (initial start_url).
Proof.
  split; simpl.
  - intros u. split; intros Hu; [by apply elem_of_empty in Hu|].
    by apply elem_of_nil in Hu.
  - intros u. rewrite lookup_empty. split; intros Hu;
      [by apply elem_of_empty in Hu|by destruct Hu].
  - constructor.
  - intros e He. by apply elem_of_nil in He.
  - repeat constructor.
  - intros e e' He He'. apply list_elem_of_singleton in He as ->.
    apply list_elem_of_singleton in He' as ->. simpl. lia.
  - intros _ e He. apply list_elem_of_singleton in He as ->. by left.
Qed.

Lemma invariant_step start_url base_domain st st' :
  invariant start_url base_domain st ->
  step base_domain st = Ret (Some st') ->
  invariant start_url base_domain st'.
Proof.
  intros [Hseen Hres Hnd Hpop Hsort Hlev Hhost] Hs.
  apply step_spec in Hs as (url&depth&rest&Hq&Hp&Hcase).
  rewrite Hq in *.
  destruct Hcase as [(_&Hq'&Hs'&Hr'&Hc')
                    |((Hnew&_)&Hs'&Hc'&Hr'&adm&Hq'&_&_&Hadm)].
  - split; rewrite ?Hq', ?Hs', ?Hr', ?Hc', ?Hp; try done.
    + intros e He. apply elem_of_app. left. by apply Hpop.
    + by rewrite <-app_assoc.
    + intros e e' He He'. apply Hlev; by right.
    + intros Hf e He. apply (Hhost Hf). by rewrite <-app_assoc in He.
  - assert (forall x, x ∈ (popped st ++ (url, depth) :: rest).*2 ->
              x <= depth + 1) as Hbound.
    { intros x Hx. rewrite fmap_app in Hx.
      apply elem_of_app in Hx as [Hx|Hx].
      - rewrite fmap_app in Hsort.
        pose proof (StronglySorted_app_1_elem_of _ _ _ x depth Hsort Hx)
          as Hle. simpl in Hle. specialize (Hle ltac:(by left)). lia.
      - apply list_elem_of_fmap in Hx as (e&->&He).
        apply (Hlev (url, depth) e); [by left|done]. }
    split; rewrite ?Hq', ?Hs', ?Hr', ?Hc', ?Hp.
    + intros u. rewrite elem_of_union, elem_of_singleton, fmap_app,
        elem_of_app, Hseen. simpl. rewrite list_elem_of_singleton.
      intuition congruence.
    + intros u. rewrite elem_of_union, elem_of_singleton, Hres.
      destruct (decide (url = u)) as [->|Hne].
      * rewrite lookup_insert_eq. split; [by eauto|by left].
      * rewrite lookup_insert_ne by done. intuition congruence.
    + rewrite fmap_app. apply NoDup_app. split; [done|]. split.
      * intros u Hu Hu'. apply list_elem_of_singleton in Hu'. simpl in Hu'.
        subst u. apply Hseen in Hu. done.
      * apply NoDup_singleton.
    + intros e He. apply elem_of_app in He as [He|He].
      * apply elem_of_app. left. by apply Hpop.
      * apply elem_of_app. by right.
    + rewrite app_assoc, <-(app_assoc (popped st) [_] rest), fmap_app.
      change ([(url, depth)] ++ rest) with ((url, depth) :: rest).
      apply StronglySorted_app_2; [|done|].
      * intros x y Hx Hy. rewrite <-list_fmap_compose in Hy.
        apply list_elem_of_fmap in Hy as (l&->&_). simpl. by apply Hbound.
      * rewrite <-list_fmap_compose.
        clear. induction adm as [|a adm IH]; simpl; constructor; [done|].
        apply Forall_forall. intros y Hy.
        apply list_elem_of_fmap in Hy as (l&->&_). simpl. lia.
    + intros e e' He He'.
      assert (forall x, x ∈ rest -> depth <= x.2) as Hge.
      { intros x Hx. rewrite fmap_app in Hsort.
        apply StronglySorted_app_1_r in Hsort. simpl in Hsort.
        apply StronglySorted_cons in Hsort as [Hall _].
        rewrite Forall_forall in Hall. apply Hall.
        apply list_elem_of_fmap. by exists x. }
      apply elem_of_app in He as [He|He];
        apply elem_of_app in He' as [He'|He'].
      * apply Hlev; by right.
      * apply list_elem_of_fmap in He' as (l&->&_). simpl.
        specialize (Hge _ He). lia.
      * apply list_elem_of_fmap in He as (l&->&_). simpl.
        pose proof (Hlev (url, depth) e' ltac:(by left) ltac:(by right))
          as Hle. simpl in Hle. lia.
      * apply list_elem_of_fmap in He as (l&->&_).
        apply list_elem_of_fmap in He' as (l'&->&_). simpl. lia.
    + intros Hf e He.
      rewrite app_assoc, <-(app_assoc (popped st) [_] rest) in He.
      change ([(url, depth)] ++ rest) with ((url, depth) :: rest) in He.
      apply elem_of_app in He as [He|He]; [by apply (Hhost Hf)|].
      apply list_elem_of_fmap in He as (l&->&Hl). simpl. right.
      rewrite Forall_forall in Hadm.
      destruct (Hadm l Hl) as (_&parsed&?&_&Hn). exists parsed. auto.
Qed.

Lemma reachable_invariant start_url parsed st :
  urlparse start_url = Ret parsed ->
  reachable start_url st ->
  invariant start_url (netloc parsed) st.
Proof.
  intros Hp. induction 1 as [|parsed' st st' Hp' _ IH Hs].
  - apply invariant_initial.
  - rewrite Hp in Hp'. injection Hp' as <-. by eapply invariant_step.
Qed.

(** The loop only goes through reachable states. *)
Lemma loop_reachable start_url parsed fuel st st' :
  urlparse start_url = Ret parsed ->
  reachable start_url st ->
  loop fuel (netloc parsed) st = Some (Ret st') ->
  reachable start_url st'.
Proof.
  intros Hp. revert st. induction fuel as [|fuel IH]; intros st Hr; [done|].
  simpl. destruct (step (netloc parsed) st) as [[st1|]|msg] eqn:Hs.
  - apply IH. by eapply reachable_step.
  - by intros [= <-].
  - done.
Qed.

Lemma crawl_run_reachable start_url fuel st :
  crawl_run fuel start_url = Some (Ret st) -> reachable start_url st.
Proof.
  unfold Crawl.crawl_run.
  destruct (urlparse start_url) as [parsed|] eqn:Hp; [|done].
  apply (loop_reachable _ _ _ _ _ Hp). constructor.
Qed.

Lemma reachable_invariant_ex start_url st :
  reachable start_url st ->
  exists base_domain, invariant start_url base_domain st.
Proof.
  intros Hr. destruct (urlparse start_url) as [parsed|msg] eqn:Hp.
  - exists (netloc parsed). by apply reachable_invariant.
  - exists "". destruct Hr as [|parsed st st' Hp' _ _]; [|congruence].
    apply invariant_initial.
Qed.

(** At every point of a crawl no URL, taken as the string the queue holds,
    has been scraped twice, and the entries taken off the queue so far,
    followed by those still on it, are in order of depth: nothing deeper is
    dequeued while a shallower entry is waiting. *)
Lemma breadth_first_order_and_single_visit start_url st :
  reachable start_url st ->
  NoDup (crawled st).*1
  /\ StronglySorted Z.le ((popped st ++ queue st).*2)
  /\ (forall e e', e ∈ popped st -> e' ∈ queue st -> e.2 <= e'.2).
Proof.
  intros Hr. apply reachable_invariant_ex in Hr as [base Hinv].
  destruct Hinv as [_ _ Hnd _ Hsort _ _].
  split; [done|]. split; [done|]. intros e e' He He'.
  rewrite fmap_app in Hsort.
  apply (StronglySorted_app_1_elem_of _ _ _ e.2 e'.2 Hsort);
    apply list_elem_of_fmap; eauto.
Qed.

(** [C2], as the code has it: a URL is marked visited when it is taken
    off the queue and scraped, not when it is put on.  At every point of a
    crawl the visited URLs are exactly the scraped ones, each of them has
    been dequeued, and each has its entry in the results; and an iteration
    marks no URL but the one it takes off the queue, so the links it puts
    on the queue stay unmarked. *)
Theorem visited_when_dequeued start_url st :
  reachable start_url st ->
  (forall u, u ∈ seen st <-> u ∈ (crawled st).*1)
  /\ (forall e, e ∈ crawled st -> e ∈ popped st)
  /\ (forall u, u ∈ seen st <-> is_Some (results st !! u))
  /\ (forall base_domain st' u,
        step base_domain st = Ret (Some st') ->
        u ∈ seen st' ->
        u ∈ seen st \/ exists depth rest, queue st = (u, depth) :: rest).
Proof.
  intros Hr. apply reachable_invariant_ex in Hr as [base Hinv].
  destruct Hinv as [Hseen Hres _ Hpop _ _ _].
  do 3 (split; [done|]). intros base_domain st' u Hs Hu.
  apply step_spec in Hs as (url&depth&rest&Hq&_&Hcase).
  destruct Hcase as [(_&_&Hs'&_)|(_&Hs'&_)]; rewrite Hs' in Hu.
  - by left.
  - apply elem_of_union in Hu as [Hu|Hu]; [|by left].
    apply elem_of_singleton in Hu as ->. right. eauto.
Qed.

(** Without [follow_subdomains] every URL taken off the queue other than
    the seed has the seed's host. *)
Lemma crawl_stays_on_seed_host start_url parsed st e :
  follow_subdomains = false ->
  urlparse start_url = Ret parsed ->
  reachable start_url st ->
  e ∈ popped st ->
  e.1 = start_url
  \/ exists p, urlparse e.1 = Ret p /\ netloc p = netloc parsed.
Proof.
  intros Hf Hp Hr He.
  destruct (reachable_invariant _ _ _ Hp Hr) as [_ _ _ _ _ _ Hhost].
  apply (Hhost Hf). apply elem_of_app. by left.
Qed.

End CrawlFacts.

Section Formats.
Context `{PyLib}.

Lemma add_format_unsupported v format fs :
  supported format = false -> add_format v format fs = Ret fs.
Proof.
  unfold supported, supported_formats, mem. simpl. unfold add_format.
  intros Hs. repeat (apply orb_false_iff in Hs as [-> Hs]). done.
Qed.

Lemma add_formats_supported v output_formats fs :
  add_formats v output_formats fs
  = add_formats v (List.filter supported output_formats) fs.
Proof.
  revert fs. induction output_formats as [|f fmts IH]; intros fs; [done|].
  simpl. destruct (supported f) eqn:Hs; simpl.
  - destruct (add_format v f fs); cbn; [apply IH|done].
  - rewrite (add_format_unsupported _ _ _ Hs). cbn. apply IH.
Qed.

Lemma scrape_supported visit url output_formats actions :
  scrape visit url output_formats actions
  = scrape visit url (List.filter supported output_formats) actions.
Proof. unfold scrape. by rewrite add_formats_supported. Qed.

Lemma step_supported visit own output_formats max_depth follow apu base st :
  step visit own output_formats max_depth follow apu base st
  = step visit own (List.filter supported output_formats) max_depth follow apu
      base st.
Proof.
  unfold step. destruct (queue st) as [|[url depth] rest]; [done|].
  by rewrite <-scrape_supported.
Qed.

Lemma loop_supported visit own output_formats max_depth follow apu fuel base st :
  loop visit own output_formats max_depth follow apu fuel base st
  = loop visit own (List.filter supported output_formats) max_depth follow apu
      fuel base st.
Proof.
  revert st. induction fuel as [|fuel IH]; intros st; [done|]. simpl.
  rewrite <-step_supported.
  destruct (step _ _ _ _ _ _ _ _) as [[st'|]|]; [apply IH|done..].
Qed.

(** [C7], as the code has it: a format name that [scrape] does not know
    is skipped; scraping and crawling give what they give without it. *)
Theorem unsupported_formats_are_ignored
    visit own output_formats max_depth follow apu fuel url actions :
  scrape visit url output_formats actions
  = scrape visit url (List.filter supported output_formats) actions
  /\ crawl visit own output_formats max_depth follow apu fuel url
     = crawl visit own (List.filter supported output_formats) max_depth
         follow apu fuel url.
Proof.
  split; [apply scrape_supported|].
  unfold crawl, crawl_run. destruct (urlparse url); [|done].
  by rewrite <-loop_supported.
Qed.

End Formats.

(** ** Crawls of the example sites *)

Lemma iterate_reachable `{PyLib} visit own fmts max_depth follow apu
    start_url parsed n st st' :
  urlparse start_url = Ret parsed ->
  reachable visit own fmts max_depth follow apu start_url st ->
  iterate visit own fmts max_depth follow apu n (netloc parsed) st
  = Ret (Some st') ->
  reachable visit own fmts max_depth follow apu start_url st'.
Proof.
  intros Hp. revert st. induction n as [|n IH]; intros st Hr; simpl.
  - by intros [= <-].
  - destruct (step _ _ _ _ _ _ _ st) as [[st1|]|] eqn:Hs; cbn; [|done..].
    apply IH. by eapply reachable_step.
Qed.

(** [C1]: with [follow_subdomains] set, the crawl from [a.com] follows the
    link to [b.a.com] and the link to [x.com] alike; [x.com] is scraped. *)
Theorem follow_subdomains_follows_every_host :
  exists st,
    @crawl_run permissive (site two_hosts) blank ["links"] 1 true None
      10 "http://a.com/" = Some (Ret st)
    /\ crawled st
       = [("http://a.com/", 0); ("http://b.a.com/", 1); ("http://x.com/", 1)]
    /\ is_Some (results st !! "http://x.com/").
Proof.
  eexists. split; [vm_compute; reflexivity|]. split; [reflexivity|].
  vm_compute. eauto.
Qed.

(** Without [follow_subdomains] the same crawl scrapes the seed only. *)
Lemma same_host_only_without_follow_subdomains :
  exists st,
    @crawl_run permissive (site two_hosts) blank ["links"] 1 false None
      10 "http://a.com/" = Some (Ret st)
    /\ crawled st = [("http://a.com/", 0)].
Proof. eexists. split; [vm_compute; reflexivity|reflexivity]. Qed.

(** [C2] as stated fails: once the seed and the two pages it links to are
    scraped, the queue holds [/r] twice, and [/r] is not marked visited. *)
Lemma queue_holds_a_url_twice_unvisited :
  exists st,
    @reachable permissive (site diamond) blank ["links"] 2 false None
      "http://a.com/" st
    /\ queue st = [("http://a.com/r", 2); ("http://a.com/r", 2)]
    /\ "http://a.com/r" ∉ seen st.
Proof.
  eexists. split; [|split].
  - eapply (@iterate_reachable permissive _ _ _ _ _ _ _ _ 3);
      [vm_compute; reflexivity|apply reachable_initial|].
    vm_compute. reflexivity.
  - reflexivity.
  - apply (bool_decide_unpack _). vm_compute. exact I.
Qed.

Lemma visited_when_dequeued_witness :
  exists st,
    @crawl_run permissive (site diamond) blank ["links"] 2 false None
      10 "http://a.com/" = Some (Ret st)
    /\ (forall u, u ∈ seen st <-> u ∈ (crawled st).*1)
    /\ (forall e, e ∈ crawled st -> e ∈ popped st)
    /\ (forall u, u ∈ seen st <-> is_Some (results st !! u))
    /\ (forall base_domain st' u,
          @step permissive (site diamond) blank ["links"] 2 false None
            base_domain st = Ret (Some st') ->
          u ∈ seen st' ->
          u ∈ seen st \/ exists depth rest, queue st = (u, depth) :: rest).
Proof.
  eexists. split; [vm_compute; reflexivity|].
  apply (@visited_when_dequeued permissive (site diamond) blank ["links"] 2
           false None "http://a.com/").
  apply (@crawl_run_reachable permissive _ _ _ _ _ _ _ 10).
  vm_compute. reflexivity.
Defined.

(** The crawl of the diamond: [/r] is queued twice and scraped once, after
    both pages of depth one. *)
Lemma breadth_first_order_on_the_diamond :
  exists st,
    @crawl_run permissive (site diamond) blank ["links"] 2 false None
      10 "http://a.com/" = Some (Ret st)
    /\ popped st
       = [("http://a.com/", 0); ("http://a.com/p", 1); ("http://a.com/q", 1);
          ("http://a.com/r", 2); ("http://a.com/r", 2)]
    /\ NoDup (crawled st).*1
    /\ StronglySorted Z.le ((popped st ++ queue st).*2)
    /\ (forall e e', e ∈ popped st -> e' ∈ queue st -> e.2 <= e'.2).
Proof.
  eexists. split; [vm_compute; reflexivity|]. split; [reflexivity|].
  apply (@breadth_first_order_and_single_visit permissive (site diamond) blank
           ["links"] 2 false None "http://a.com/").
  apply (@crawl_run_reachable permissive _ _ _ _ _ _ _ 10).
  vm_compute. reflexivity.
Qed.

(** [C3]: a seed is put on the queue as it is given, while the links found
    on a page come in canonical form; from the seed [http://a.com/x#frag],
    whose page links to [/x], the crawl scrapes [http://a.com/x#frag] and
    then [http://a.com/x], two URLs with the same canonical form: the
    canonical URL [http://a.com/x] is visited twice. *)
Theorem seed_with_fragment_is_scraped_again :
  exists st,
    @crawl_run permissive (site fragment_seed) blank ["links"] 1 false None
      10 "http://a.com/x#frag" = Some (Ret st)
    /\ crawled st = [("http://a.com/x#frag", 0); ("http://a.com/x", 1)]
    /\ @normalize_url permissive None "http://a.com/x" "http://a.com/x#frag"
       = Ret (Some "http://a.com/x")
    /\ @normalize_url permissive None "http://a.com/x" "http://a.com/x"
       = Ret (Some "http://a.com/x").
Proof.
  eexists. split; [vm_compute; reflexivity|]. repeat split.
Qed.

(** [C7] as stated fails: [scrape] answers an unknown format name with a
    result that has no error and no formats, and [crawl] scrapes the seed
    all the same. *)
Lemma unknown_format_is_not_rejected :
  @scrape permissive (site two_hosts) "http://a.com/" ["pdf"] None
  = {| result_url := "http://a.com/";
       result_timestamp := Some "2025-01-01T00:00:00";
       result_error := None; formats := ∅ |}
  /\ exists st,
       @crawl_run permissive (site two_hosts) blank ["pdf"] 1 false None
         10 "http://a.com/" = Some (Ret st)
       /\ crawled st = [("http://a.com/", 0)]
       /\ result_error <$> results st !! "http://a.com/" = Some None.
Proof.
  split; [reflexivity|].
  eexists. split; [vm_compute; reflexivity|]. split; reflexivity.
Qed.

(** * Further properties of the code *)

(** ** Links without tabs and line breaks *)

Section CleanLinks.
Context `{PyLib}.

Lemma keep_drops p c s : p c = false -> contains c (keep p s) = false.
Proof.
  intros Hc. induction s as [|x s IH]; simpl; [done|].
  destruct (p x) eqn:Hx; [|done]. simpl. rewrite IH, orb_false_r.
  apply Ascii.eqb_neq. intros ->. congruence.
Qed.

Lemma remove_unsafe_clean c s :
  unsafe_byte c = true -> contains c (remove_unsafe s) = false.
Proof. intros Hc. apply keep_drops. by rewrite Hc. Qed.

Lemma lower_scheme_char_safe c :
  lower_scheme_char c = true -> unsafe_byte c = false.
Proof.
  destruct c as [[] [] [] [] [] [] [] []]; vm_compute; congruence.
Qed.

Lemma lower_scheme_clean c s :
  unsafe_byte c = true ->
  all lower_scheme_char s = true -> contains c s = false.
Proof.
  intros Hc Hs. apply all_not_contains. eapply all_impl; [|exact Hs].
  intros x Hx. simpl. apply negb_true_iff, Ascii.eqb_neq. intros ->.
  apply lower_scheme_char_safe in Hx. congruence.
Qed.

(** No component kept by [urlsplit] holds a tab or a line break. *)
Lemma urlsplit_clean c url r :
  unsafe_byte c = true ->
  urlsplit url "" = Ret r ->
  contains c (sr_scheme r) = false
  /\ contains c (sr_netloc r) = false
  /\ contains c (sr_path r) = false
  /\ contains c (sr_query r) = false.
Proof.
  intros Hc. unfold urlsplit.
  pose proof (remove_unsafe_clean c (lstrip c0_or_space url) Hc) as Hu.
  destruct (split_scheme _ _) as [s u] eqn:Hs.
  apply split_scheme_spec in Hs as [Hs [dropped Hd]].
  rewrite Hd in Hu. apply contains_suffix in Hu as [_ Hu].
  assert (Hsc : contains c s = false).
  { destruct Hs as [->|Hs]; [done|]. by apply lower_scheme_clean. }
  destruct (_splitnetloc2 u) as [[a b]|] eqn:E.
  - apply _splitnetloc2_Some in E as (rest & -> & E).
    apply contains_suffix in Hu as [_ Hu].
    apply break_at_spec in E as (-> & _ & _).
    apply contains_suffix in Hu as [Ha Hb].
    destruct (check_brackets a) as [[]|msg]; cbn; [|done].
    destruct (split1 "#" b) as [u1 frag] eqn:E1.
    destruct (split1 "?" u1) as [p q] eqn:E2.
    apply split1_spec in E1 as [_ E1]. apply split1_spec in E2 as [_ E2].
    intros [= <-]. simpl. split; [done|]. split; [done|].
    assert (contains c u1 = false) as Hu1.
    { destruct E1 as [[-> _]| ->]; [done|].
      by apply contains_suffix in Hb as [? _]. }
    destruct E2 as [[-> ->]| ->]; [done|].
    apply contains_suffix in Hu1 as [? Hq]. simpl in Hq.
    by apply orb_false_iff in Hq as [_ ?].
  - cbn. destruct (split1 "#" u) as [u1 frag] eqn:E1.
    destruct (split1 "?" u1) as [p q] eqn:E2.
    apply split1_spec in E1 as [_ E1]. apply split1_spec in E2 as [_ E2].
    intros [= <-]. simpl. split; [done|]. split; [done|].
    assert (contains c u1 = false) as Hu1.
    { destruct E1 as [[-> _]| ->]; [done|].
      by apply contains_suffix in Hu as [? _]. }
    destruct E2 as [[-> ->]| ->]; [done|].
    apply contains_suffix in Hu1 as [? Hq]. simpl in Hq.
    by apply orb_false_iff in Hq as [_ ?].
Qed.

Lemma urlparse_clean c url parsed :
  unsafe_byte c = true ->
  urlparse url = Ret parsed ->
  contains c (scheme parsed) = false
  /\ contains c (netloc parsed) = false
  /\ contains c (path parsed) = false
  /\ contains c (query parsed) = false.
Proof.
  intros Hc. unfold urlparse, urlparse_with.
  destruct (urlsplit url "") as [r|] eqn:E; cbn; [|done].
  apply (urlsplit_clean c) in E as (Hs & Hn & Hp & Hq); [|done].
  destruct (_ && _).
  - destruct (_splitparams_prefix (sr_path r)) as [dropped Hd].
    destruct (_splitparams (sr_path r)) as [p1 p2]. simpl in Hd.
    intros [= <-]. simpl. rewrite Hd in Hp.
    apply contains_suffix in Hp as [Hp _]. done.
  - intros [= <-]. done.
Qed.

Lemma normalize_url_clean base cur url n c :
  normalize_url base cur url = Ret (Some n) ->
  unsafe_byte c = true ->
  contains c n = false.
Proof.
  unfold normalize_url. destruct (_ || _); [done|].
  destruct (if opt_truthy base && _ then _ else _) as [u|]; cbn; [|done].
  destruct (urlparse u) as [parsed|] eqn:E; [|done].
  intros [= <-] Hc.
  apply (urlparse_clean c) in E as (Hs & Hn & Hp & Hq); [|done].
  assert (contains c "://" = false) as Hsep.
  { destruct c as [[] [] [] [] [] [] [] []]; done. }
  assert (contains c "?" = false) as Hqm.
  { destruct c as [[] [] [] [] [] [] [] []]; done. }
  destruct (truthy (query parsed));
    rewrite ?contains_app, Hs, Hsep, Hn, Hp, ?Hqm, ?Hq; done.
Qed.

(** What [Map] returns: an error found before the browser is asked, the
    error of the browser, the error of a loop, or the sorted set. *)
Lemma Map_run base inc pat :
  (exists msg, forall browser, Map browser base inc pat = map_error msg)
  \/ (forall browser,
        Map browser base inc pat
        = match browser with
          | Ret page =>
              match add_links base (current_url page) pat
                      (link_attributes inc (soup page)) ∅ with
              | Ret s => {| status := "success"; links := sorted s;
                            error := None |}
              | Raise msg => map_error msg
              end
          | Raise msg => map_error msg
          end).
Proof.
  unfold Map.
  destruct (if opt_truthy base then _ else _) as [r|] eqn:Hv.
  { left. revert Hv. repeat case_match; intros; simplify_eq; eauto. }
  destruct (if opt_truthy pat then _ else _) as [r|] eqn:Hc.
  { left. revert Hc. repeat case_match; intros; simplify_eq; eauto. }
  right. intros [page|msg]; cbn; [|done].
  pose proof (Map_loops base pat inc page) as Hl. cbn in Hl. rewrite <-Hl.
  destruct (add_links _ _ _ (a_hrefs _) _) as [s0|]; cbn; [|done].
  destruct inc; cbn; [|done].
  destruct (add_links _ _ _ (img_srcs _) _) as [s1|]; cbn; [|done].
  destruct (add_links _ _ _ (stylesheet_hrefs _) _) as [s2|]; cbn; [|done].
  by destruct (add_links _ _ _ (script_srcs _) _).
Qed.

Lemma Map_link_origin browser base inc pat l :
  l ∈ links (Map browser base inc pat) ->
  exists page attr,
    browser = Ret page
    /\ attr ∈ link_attributes inc (soup page)
    /\ normalize_url base (current_url page) attr = Ret (Some l)
    /\ truthy l = true /\ passes pat l.
Proof.
  destruct (Map_run base inc pat) as [[msg ->]| ->].
  { intros Hl. by apply elem_of_nil in Hl. }
  destruct browser as [page|msg]; [|intros Hl; by apply elem_of_nil in Hl].
  destruct (add_links _ _ _ _ _) as [s|msg] eqn:E;
    [|intros Hl; by apply elem_of_nil in Hl].
  simpl. rewrite elem_of_sorted, (add_links_elem _ _ _ _ _ _ E l).
  intros [Hl|(attr&?&?&?&?)]; [by apply elem_of_empty in Hl|].
  by exists page, attr.
Qed.

(** Every link [Map] returns is non-empty, has a lower-case scheme in front
    of [://], holds no [#], tab or line break, and matches the filter
    pattern when one is given. *)
Theorem Map_links_are_clean_and_filtered browser base inc pat l :
  l ∈ links (Map browser base inc pat) ->
  truthy l = true
  /\ contains "#" l = false
  /\ no_char tab_cr_lf l = true
  /\ (exists s rest, l = s +:+ "://" +:+ rest
        /\ all lower_scheme_char s = true)
  /\ (opt_truthy pat = true -> re_search (default "" pat) l = true).
Proof.
  intros (page&attr&_&_&Hn&Ht&Hp)%Map_link_origin.
  split; [done|].
  destruct (normalize_url_shape _ _ _ _ Hn) as [Hh Hs].
  split; [done|]. split.
  - unfold no_char, tab_cr_lf. cbn [List.forallb].
    rewrite !(normalize_url_clean _ _ _ _ _ Hn); done.
  - split; [done|]. intros Hpat. unfold passes in Hp. rewrite Hpat in Hp.
    simpl in Hp. by apply negb_false_iff in Hp.
Qed.

(** With [include_assets] the links of the anchors are still there: a map
    that succeeds with the assets holds every link of the map without. *)
Theorem Map_with_assets_keeps_the_anchor_links browser base pat l :
  status (Map browser base true pat) = "success" ->
  l ∈ links (Map browser base false pat) ->
  l ∈ links (Map browser base true pat).
Proof.
  intros Hs (page&attr&->&Ha&Hn&Ht&Hp)%Map_link_origin. revert Hs.
  destruct (Map_run base true pat) as [[msg ->]| ->]; [done|].
  destruct (add_links _ _ _ _ _) as [s|msg] eqn:E; [|done]. intros _. simpl.
  rewrite elem_of_sorted, (add_links_elem _ _ _ _ _ _ E l). right.
  exists attr. split; [|done]. unfold link_attributes in *.
  rewrite app_nil_r in Ha. apply elem_of_app. by left.
Qed.

(** One attribute value that [urljoin] refuses costs the whole map: the
    exception leaves the loops, and [Map] reports an error with no links. *)
Theorem Map_loses_every_link_to_one_bad_attribute
    page base inc pat attr msg :
  attr ∈ link_attributes inc (soup page) ->
  normalize_url base (current_url page) attr = Raise msg ->
  status (Map (Ret page) base inc pat) = "error"
  /\ links (Map (Ret page) base inc pat) = []
  /\ is_Some (error (Map (Ret page) base inc pat)).
Proof.
  intros Ha Hn.
  destruct (Map_run base inc pat) as [[msg' ->]| ->]; [by eauto|].
  destruct (add_links _ _ _ _ _) as [s|msg'] eqn:E; [|by eauto].
  assert (exists m, add_links base (current_url page) pat
                      (link_attributes inc (soup page)) ∅ = Raise m)
    as [m Hm]; [|congruence].
  apply add_links_raises. eauto.
Qed.

End CleanLinks.

Section FixedPoints.
Context `{PyLib}.

(** A canonical form is a fixed point of [normalize_url], whatever the
    base URL and the page it is found on: an absolute [http] or [https]
    URL with plain parts, without fragment and without the [?] of an empty
    query, comes back as it is. *)
Theorem canonical_urls_are_fixed_points base cur sch host path query :
  sch = "http" \/ sch = "https" ->
  plain_parts host path query = true ->
  normalize_url base cur (canonical sch host path query)
  = Ret (Some (canonical sch host path query)).
Proof.
  intros Hsch Hplain. destruct query as [[|c q]|].
  - change (canonical sch host path (Some ""))
      with (absolute_url sch host path None None).
    by rewrite (normalize_url_absolute _ _ _ _ _ None None Hsch).
  - change (canonical sch host path (Some (String c q)))
      with (sch +:+ "://" +:+ host +:+ path +:+ "?" +:+ String c q).
    rewrite <-(str_app_nil_r (String c q)) at 1.
    change (sch +:+ "://" +:+ host +:+ path +:+ "?" +:+ String c q +:+ "")
      with (absolute_url sch host path (Some (String c q)) None).
    by rewrite (normalize_url_absolute _ _ _ _ _ _ None Hsch Hplain).
  - change (canonical sch host path None)
      with (absolute_url sch host path None None).
    by rewrite (normalize_url_absolute _ _ _ _ _ None None Hsch).
Qed.

End FixedPoints.

(** ** Markdown and metadata *)

Section MarkdownMetadata.

(** The markdown of a document shows its metadata through the eight
    important fields only: two documents with the same title, sections and
    reviews whose metadata agree on those fields, and are both empty or
    both not, have the same markdown, whatever their other metadata, ids
    and status. *)
Theorem markdown_shows_the_important_fields_only data data' :
  title data = title data' ->
  sections data = sections data' ->
  reviews data = reviews data' ->
  bool_decide (metadata data = ∅) = bool_decide (metadata data' = ∅) ->
  (forall field, field ∈ important_fields ->
     metadata data !! field = metadata data' !! field) ->
  _json_to_markdown data = _json_to_markdown data'.
Proof.
  intros Ht Hs Hr He Hf. unfold _json_to_markdown.
  rewrite Ht, Hs, Hr, He.
  assert (flat_map (render_field (metadata data)) important_fields
          = flat_map (render_field (metadata data')) important_fields) as ->;
    [|done].
  rewrite !flat_map_concat_map. f_equal. apply map_ext_in.
  intros field Hin. unfold render_field.
  rewrite Hf; [done|]. by apply list_elem_of_In.
Qed.

End MarkdownMetadata.


(** ** Defaults and precedence in the metadata *)

Section MetaDefaults.
Context `{PyLib}.
#[local] Arguments mem : simpl never.

(** The dictionary after the loop over the [<meta>] elements, and what the
    rest of [extract_meta_tags] makes of it. *)
Lemma extract_meta_tags_run page uuid lang :
  html_lang (soup page) = Some lang ->
  exists m,
    (forall k, m !! k = after_metas (initial_tags page uuid (default "en-US" lang))
                          (metas (soup page)) k)
    /\ extract_meta_tags page uuid
       = Ret (let m1 :=
                match match link_icon (soup page) with
                      | Some href => Some href
                      | None => link_shortcut_icon (soup page)
                      end with
                | Some (Some href) =>
                    if truthy href then <["favicon" := MStr href]> m else m
                | _ => m
                end in
              let m2 :=
                match title_text (soup page) with
                | Some t => <["title" := MStr t]> m1
                | None => m1
                end in
              let m3 :=
                match m2 !! "og:site_name", m2 !! "title" with
                | None, Some t => <["og:site_name" := t]> m2
                | _, _ => m2
                end in
              let m4 :=
                match m3 !! "og:type" with
                | None => <["og:type" := MStr "website"]> m3
                | Some _ => m3
                end in
              match m4 !! "viewport" with
              | None =>
                  <["viewport" := MStr "width=device-width, initial-scale=1"]>
                    m4
              | Some _ => m4
              end).
Proof.
  intros Hlang. unfold extract_meta_tags. rewrite Hlang. cbn.
  destruct (add_metas_lookup (metas (soup page))
              (initial_tags page uuid (default "en-US" lang))
              (initial_tags_lists_only _ _ _)) as (m & Hm & Hlook).
  unfold initial_tags in Hm. rewrite Hm. cbn. by exists m.
Qed.

Lemma after_metas_absent m0 ms k :
  occurrences k ms = [] -> after_metas m0 ms k = m0 !! k.
Proof. unfold after_metas. intros ->. by destruct (mem k multi_valued). Qed.

Ltac lookups page :=
  destruct (link_icon (soup page)) as [[?|]|];
  destruct (link_shortcut_icon (soup page)) as [[?|]|];
  destruct (title_text (soup page));
  repeat first
    [ rewrite lookup_insert_eq in *
    | rewrite lookup_insert_ne in * by done
    | case_match ];
  try done; try congruence.

(** On a page with an [<html>] element the metadata is always built, and a
    key no [<meta>] element gives has its default: the generated id, the
    URL of the page, status [200], the [lang] attribute or [en-US], type
    [website], the standard viewport, and for [og:site_name] the title. *)
Theorem metadata_defaults page uuid lang :
  html_lang (soup page) = Some lang ->
  exists tags,
    extract_meta_tags page uuid = Ret tags
    /\ (forall k v,
          occurrences k (metas (soup page)) = [] ->
          (k, v) ∈ [("scrapeId", MStr uuid);
                    ("sourceURL", MStr (current_url page));
                    ("statusCode", MInt 200);
                    ("url", MStr (current_url page));
                    ("language", MStr (default "en-US" lang));
                    ("og:type", MStr "website");
                    ("viewport", MStr "width=device-width, initial-scale=1")] ->
          tags !! k = Some v)
    /\ (occurrences "og:site_name" (metas (soup page)) = [] ->
        tags !! "og:site_name" = tags !! "title").
Proof.
  intros Hlang.
  destruct (extract_meta_tags_run page uuid lang Hlang) as (m & Hm & ->).
  eexists. split; [done|]. split.
  - intros k v Habs Hk.
    pose proof (Hm k) as Hmk. rewrite (after_metas_absent _ _ _ Habs) in Hmk.
    cbn zeta.
    unfold initial_tags in Hmk.
    repeat (apply elem_of_cons in Hk as [[= -> ->]|Hk];
            [repeat first [ rewrite lookup_insert_eq in Hmk
                          | rewrite lookup_insert_ne in Hmk by done
                          | rewrite lookup_empty in Hmk ]; lookups page|]).
    by apply elem_of_nil in Hk.
  - intros Habs.
    pose proof (Hm "og:site_name") as Hmk.
    rewrite (after_metas_absent _ _ _ Habs) in Hmk. unfold initial_tags in Hmk.
    repeat first [ rewrite lookup_insert_ne in Hmk by done
                 | rewrite lookup_empty in Hmk ].
    cbn zeta. lookups page.
Qed.

(** The page's own [<title>] and icon link go before [<meta>] elements
    named [title] and [favicon]: those only count when the page has no
    [<title>], or no icon link with a non-empty [href]. *)
Theorem title_and_favicon_come_from_the_page_first page uuid lang :
  html_lang (soup page) = Some lang ->
  exists tags,
    extract_meta_tags page uuid = Ret tags
    /\ tags !! "title"
       = match title_text (soup page) with
         | Some t => Some (MStr t)
         | None => MStr <$> last (occurrences "title" (metas (soup page)))
         end
    /\ tags !! "favicon"
       = match match link_icon (soup page) with
               | Some href => Some href
               | None => link_shortcut_icon (soup page)
               end with
         | Some (Some (String c href)) => Some (MStr (String c href))
         | _ => MStr <$> last (occurrences "favicon" (metas (soup page)))
         end.
Proof.
  intros Hlang.
  destruct (extract_meta_tags_run page uuid lang Hlang) as (m & Hm & ->).
  eexists. split; [done|].
  pose proof (Hm "title") as Ht. pose proof (Hm "favicon") as Hf.
  unfold after_metas in Ht, Hf.
  change (mem "title" multi_valued) with false in Ht.
  change (mem "favicon" multi_valued) with false in Hf.
  cbn iota in Ht, Hf.
  change (initial_tags page uuid (default "en-US" lang) !! "title")
    with (@None MetaValue) in Ht.
  change (initial_tags page uuid (default "en-US" lang) !! "favicon")
    with (@None MetaValue) in Hf.
  assert (Ht' : m !! "title"
                = MStr <$> last (occurrences "title" (metas (soup page)))).
  { rewrite Ht. by destruct (last _). }
  assert (Hf' : m !! "favicon"
                = MStr <$> last (occurrences "favicon" (metas (soup page)))).
  { rewrite Hf. by destruct (last _). }
  clear Ht Hf. rewrite <-Ht', <-Hf'. cbn zeta. split; lookups page.
Qed.

End MetaDefaults.

(** ** The result of a scrape *)

Section ScrapeResults.
Context `{PyLib}.

Lemma add_format_dom v format fs fs' :
  add_format v format fs = Ret fs' ->
  dom fs' = dom fs ∪ match format_key format with
                     | Some k => {[k]}
                     | None => ∅
                     end.
Proof.
  unfold add_format, _get_markdown, get_page_source, format_key, mem.
  cbn [existsb]. intros Hadd.
  repeat match type of Hadd with
  | (if String.eqb format ?s then _ else _) = _ =>
      destruct (String.eqb_spec format s) as [->|?]
  end;
  repeat match type of Hadd with
  | context [mbind _ ?m] => destruct m; cbn in Hadd; [|done]
  end;
  injection Hadd as <-; cbn [orb]; rewrite ?dom_insert_L;
  try (apply set_eq; intros x; rewrite !elem_of_union; tauto).
  apply set_eq. intros x. rewrite elem_of_union, elem_of_empty. tauto.
Qed.

Lemma add_formats_dom v fmts fs fs' :
  add_formats v fmts fs = Ret fs' ->
  dom fs' = dom fs ∪ list_to_set (omap format_key fmts).
Proof.
  revert fs. induction fmts as [|format rest IH]; intros fs; simpl.
  - intros [= <-]. apply set_eq. intros x.
    rewrite elem_of_union, elem_of_empty. tauto.
  - destruct (add_format v format fs) as [fs1|] eqn:H1; cbn; [|done].
    intros Hadd. rewrite (IH _ Hadd), (add_format_dom _ _ _ _ H1).
    destruct (format_key format) as [k|]; simpl; apply set_eq; intros x;
      rewrite ?elem_of_union, ?elem_of_empty; tauto.
Qed.

(** A scrape either succeeds, with a timestamp, no error and exactly the
    keys of the requested formats it knows ([screenshot@fullPage] under
    [screenshot]), or fails, with an error message, no timestamp and no
    format at all. *)
Theorem scrape_result_is_complete_or_empty visit url fmts actions :
  let r := scrape visit url fmts actions in
  result_url r = url
  /\ (result_error r = None
      /\ result_timestamp r = Some (timestamp (visit url actions))
      /\ dom (formats r) = list_to_set (omap format_key fmts)
      \/ is_Some (result_error r)
         /\ result_timestamp r = None
         /\ formats r = ∅).
Proof.
  unfold scrape.
  destruct (match actions with Some (_ :: _) => _ | _ => _ end); cbn;
    [|by eauto].
  destruct (add_formats _ _ _) as [fs|] eqn:Hadd; simpl; [|by eauto].
  split; [done|]. left. split; [done|]. split; [done|].
  rewrite (add_formats_dom _ _ _ _ Hadd), dom_empty_L.
  apply set_eq. intros x. rewrite elem_of_union, elem_of_empty. tauto.
Qed.

Lemma add_formats_raises v fmts fs format :
  format ∈ fmts ->
  (forall fs, exists msg, add_format v format fs = Raise msg) ->
  exists msg, add_formats v fmts fs = Raise msg.
Proof.
  intros Hin Hf. revert fs.
  induction fmts as [|format' rest IH]; intros fs; simpl;
    [by apply elem_of_nil in Hin|].
  destruct (add_format v format' fs) as [fs1|msg] eqn:H1; cbn; [|by eauto].
  apply elem_of_cons in Hin as [->|Hin].
  - destruct (Hf fs) as [msg ?]. congruence.
  - by apply IH.
Qed.

(** One format that cannot be produced costs all of them: the result of
    the scrape is an error without formats, also those already produced. *)
Theorem scrape_drops_every_format_when_one_fails
    visit url fmts actions format :
  format ∈ fmts ->
  (forall fs, exists msg, add_format (visit url actions) format fs = Raise msg) ->
  exists msg,
    scrape visit url fmts actions
    = {| result_url := url; result_timestamp := None;
         result_error := Some msg; formats := ∅ |}.
Proof.
  intros Hin Hf. unfold scrape.
  destruct (match actions with Some (_ :: _) => _ | _ => _ end); cbn;
    [|by eauto].
  destruct (add_formats_raises _ _ ∅ _ Hin Hf) as [msg ->]. by eauto.
Qed.

End ScrapeResults.

(** ** The screenshot formats *)

Section ScreenshotFormats.
Context `{PyLib}.

Import TakeScreenshot.

(** [scrape] cannot deliver a screenshot: [_take_screenshot] passes
    [take_screenshot] a keyword it does not have, so whenever [screenshot]
    or [screenshot@fullPage] is among the output formats the result is an
    error without any format. *)
Theorem screenshot_formats_always_fail
    taken visit url fmts actions format :
  (forall full_page,
     screenshot (visit url actions) full_page = _take_screenshot taken full_page) ->
  format ∈ fmts ->
  format = "screenshot" \/ format = "screenshot@fullPage" ->
  is_Some (result_error (scrape visit url fmts actions))
  /\ result_timestamp (scrape visit url fmts actions) = None
  /\ formats (scrape visit url fmts actions) = ∅.
Proof.
  intros Hs Hin Hf. unfold scrape.
  destruct (match actions with Some (_ :: _) => _ | _ => _ end); cbn;
    [|by eauto].
  destruct (add_formats_raises (visit url actions) fmts ∅ format Hin)
    as [msg ->]; [|by eauto].
  intros fs. unfold add_format.
  destruct Hf as [-> | ->]; cbn; rewrite Hs; by eauto.
Qed.

End ScreenshotFormats.

(** ** Saved files *)

Section SavedFiles.
Context `{PyLib}.

Import Files.

Lemma split_absent c a : contains c a = false -> split c a = [a].
Proof.
  induction a as [|x a IH]; simpl; [done|].
  intros [Hx Ha]%orb_false_iff. rewrite Hx, (IH Ha). done.
Qed.

Lemma split_app c a b :
  contains c a = false ->
  split c (a +:+ String c b) = a :: split c b.
Proof.
  induction a as [|x a IH].
  - intros _. rewrite str_app_nil_l. simpl. by rewrite Ascii.eqb_refl.
  - simpl. intros [Hx Ha]%orb_false_iff. rewrite ?str_app_cons. simpl.
    rewrite Hx, (IH Ha). done.
Qed.

(** Joining lines and splitting them again gives the lines back, when
    there is at least one and none holds the separator. *)
Lemma split_join c l :
  l <> [] ->
  Forall (fun x => contains c x = false) l ->
  split c (join (String c "") l) = l.
Proof.
  unfold join. induction l as [|x l IH]; [done|]. intros _ Hl.
  apply Forall_cons in Hl as [Hx Hl]. destruct l as [|y l].
  - simpl. by apply split_absent.
  - change (String.concat (String c "") (x :: y :: l))
      with (x +:+ String c "" +:+ String.concat (String c "") (y :: l)).
    rewrite str_app_cons, str_app_nil_l, (split_app _ _ _ Hx), IH; done.
Qed.

(** The text file [save_links] writes for the links of a map holds them one
    per line: on a disk that takes the directory and the file, the links
    are written to [<name>.txt] under [links], and splitting the text at
    its line breaks gives back the list, provided it is not empty.  Any
    format name other than [json] is saved as text. *)
Theorem saved_links_read_back_line_by_line
    disk screenshot_dir now json_dump browser base inc pat filename format :
  let ls := links (Map browser base inc pat) in
  let name := default ("links_" +:+ now) filename +:+ ".txt" in
  let file := [screenshot_dir; "links"; name] in
  format <> "json" ->
  mkdir disk [screenshot_dir; "links"] = Ret tt ->
  (forall text, write_text disk file text = Ret tt) ->
  exists text,
    save_links disk screenshot_dir now json_dump ls filename format
    = ([Mkdir [screenshot_dir; "links"]; WriteText file text], SavedTo file)
    /\ (ls <> [] -> split (chr 10) text = ls)
    /\ (ls = [] -> text = "").
Proof.
  intros ls name file Hf Hm Hw. unfold save_links. rewrite Hm.
  apply String.eqb_neq in Hf. rewrite Hf.
  assert (Hname : match filename with
                  | Some f => f
                  | None => "links_" +:+ now
                  end +:+ ".txt" = name).
  { unfold name. by destruct filename. }
  rewrite Hname. change ([screenshot_dir; "links"] ++ [name]) with file.
  rewrite Hw. eexists. split; [done|]. split.
  - intros Hne. apply split_join; [done|]. apply Forall_forall. intros l Hl.
    apply Map_link_origin in Hl as (page&attr&_&_&Hn&_).
    apply (normalize_url_clean _ _ _ _ _ Hn). reflexivity.
  - by intros ->.
Qed.

End SavedFiles.

Section SavedContent.

Import Files.

(** On a disk that takes every directory and file, [Scrape.save] writes the
    content as it is under [<format>/<name><ext>] for the formats
    [markdown], [html], [rawHtml] and [json]; for any other format name,
    [links] and [screenshot] among them, it has made the directory of that
    name by the time it refuses the format, writes no file and returns the
    message. *)
Theorem save_accepts_four_formats
    disk screenshot_dir now content format filename :
  (forall dir, mkdir disk dir = Ret tt) ->
  (forall file text, write_text disk file text = Ret tt) ->
  let name := default ("content_" +:+ now) filename in
  save disk screenshot_dir now content format filename
  = match List.find (fun p => String.eqb format (fst p))
            [("markdown", ".md"); ("html", ".html"); ("rawHtml", ".html");
             ("json", ".json")] with
    | Some (_, ext) =>
        ([Mkdir [screenshot_dir; format];
          WriteText [screenshot_dir; format; name +:+ ext] content],
         SavedTo [screenshot_dir; format; name +:+ ext])
    | None =>
        ([Mkdir [screenshot_dir; format]],
         NotSaved ("Error saving content: Unsupported format: " +:+ format))
    end.
Proof.
  intros Hm Hw name. unfold save. rewrite Hm. cbn [List.find fst].
  assert (Hname : match filename with
                  | Some f => f
                  | None => "content_" +:+ now
                  end = name).
  { unfold name. by destruct filename. }
  rewrite Hname.
  repeat (destruct (String.eqb format _); [by rewrite Hw|]). done.
Qed.

End SavedContent.


(** ** Full-page capture at any size *)

Section Stitching.

Import Screenshot.

Lemma Image_new_ok w h :
  0 <= w -> 0 <= h -> Image_new (w, h) = Ret {| size := (w, h); pasted := [] |}.
Proof.
  intros Hw Hh. unfold Image_new. cbn [fst snd].
  replace (w <? 0) with false by lia. by replace (h <? 0) with false by lia.
Qed.

Lemma range_from_0 stop step :
  0 < step ->
  range 0 stop step
  = Ret (map (fun i => Z.of_nat i * step)
           (seq 0 (Z.to_nat ((stop + step - 1) / step)))).
Proof.
  intros Hs. unfold range. replace (step =? 0) with false by lia.
  replace (0 <? step) with true by lia. rewrite Z.sub_0_r. done.
Qed.




(** As the code stands the capture of a page with a positive height never
    passes the first viewport: the PNG data of the first screenshot is taken
    for a file name and refused, whatever the sizes; one screenshot has
    been taken at offset 0 and no image comes out. *)
Theorem capture_full_page_fails_on_the_first_capture open_file driver :
  (forall y, startswith (get_screenshot_as_png driver y) png_header = true) ->
  0 < innerHeight driver ->
  0 < scrollHeight driver ->
  0 <= scrollWidth driver ->
  capture_full_page open_file driver
  = ([ScrollTo 0 0; Sleep500ms; GetScreenshotAsPng],
     Raise "embedded null byte").
Proof.
  intros Hpng Hv Hh Hw. unfold capture_full_page, capture_full_page_with.
  rewrite (Image_new_ok _ _ Hw) by lia. rewrite (range_from_0 _ _ Hv).
  set (h := scrollHeight driver) in *. set (v := innerHeight driver) in *.
  assert (1 <= (h + v - 1) / v).
  { apply Z.div_le_lower_bound; lia. }
  destruct (Z.to_nat ((h + v - 1) / v)) as [|n] eqn:Hn; [lia|].
  cbn [seq map capture_loop]. unfold Image_open.
  by rewrite (png_data_holds_nul _ (Hpng _)).
Qed.


End Stitching.

(** ** What a crawl returns *)

Section CrawlResults.
Context `{PyLib}.
Variable visit : string -> option (list Action) -> Visit.
Variable own_browser : exc Page.
Variable output_formats : list string.
Variable max_depth : Z.
Variable follow_subdomains : bool.
Variable actions_per_url : option (gmap string (list Action)).

Abbreviation step := (step visit own_browser output_formats max_depth
                    follow_subdomains actions_per_url).
Abbreviation loop := (loop visit own_browser output_formats max_depth
                    follow_subdomains actions_per_url).
Abbreviation crawl_run := (crawl_run visit own_browser output_formats max_depth
                         follow_subdomains actions_per_url).
Abbreviation crawl := (crawl visit own_browser output_formats max_depth
                         follow_subdomains actions_per_url).
Abbreviation reachable := (reachable visit own_browser output_formats max_depth
                         follow_subdomains actions_per_url).
Abbreviation offer := (offer follow_subdomains).
Abbreviation scraped := (fun url => scrape visit url output_formats
                                      (actions_for actions_per_url url)).
Abbreviation followed := (fun url => links_of own_browser url (scraped url)).

Lemma loop_more_fuel fuel fuel' base_domain st r :
  (fuel <= fuel')%nat ->
  loop fuel base_domain st = Some r -> loop fuel' base_domain st = Some r.
Proof.
  revert fuel' st. induction fuel as [|fuel IH]; intros fuel' st Hle; [done|].
  destruct fuel' as [|fuel']; [lia|]. simpl.
  destruct (step base_domain st) as [[st'|]|msg]; [|done..].
  apply IH. lia.
Qed.

(** The crawl loop always comes to an end: from some number of iterations
    on, [crawl_run] gives one and the same outcome, and when that is a state
    its queue is empty. *)
Theorem crawl_ends_with_an_empty_queue start_url :
  exists fuel r,
    (forall fuel', (fuel <= fuel')%nat -> crawl_run fuel' start_url = Some r)
    /\ (forall st, r = Ret st -> queue st = []).
Proof.
  destruct (crawl_terminates visit own_browser output_formats max_depth
              follow_subdomains actions_per_url start_url)
    as (fuel&r&Hr&Hq).
  exists fuel, r. split; [|done]. intros fuel' Hle. revert Hr.
  unfold Crawl.crawl_run. destruct (urlparse start_url); [|done].
  by apply loop_more_fuel.
Qed.

Lemma reachable_depths start_url st :
  reachable start_url st ->
  (forall e, e ∈ popped st ++ queue st ->
     e = (start_url, 0) \/ 1 <= e.2 <= max_depth)
  /\ (forall e, e ∈ crawled st -> 0 <= e.2 <= max_depth).
Proof.
  induction 1 as [|parsed st st' Hp _ [IHq IHc] Hs].
  - split; simpl.
    + intros e He. apply list_elem_of_singleton in He. by left.
    + intros e He. by apply elem_of_nil in He.
  - eapply step_spec in Hs as (url&depth&rest&Hq&Hpop&Hcase).
    assert (Hhead : (url, depth) = (start_url, 0) \/ 1 <= depth <= max_depth).
    { apply (IHq (url, depth)). rewrite Hq. apply elem_of_app. right.
      by left. }
    destruct Hcase as [(_&Hq'&_&_&Hc')|((_&Hd)&_&Hc'&_&adm&Hq'&_&Hadm&_)].
    + split.
      * intros e. rewrite Hpop, Hq', <-app_assoc. simpl. rewrite <-Hq.
        apply IHq.
      * rewrite Hc'. apply IHc.
    + split.
      * intros e. rewrite Hpop, Hq', <-app_assoc. simpl.
        change ((url, depth) :: rest ++ ?x) with (((url, depth) :: rest) ++ x).
        rewrite <-Hq, app_assoc. intros He.
        apply elem_of_app in He as [He|He]; [by apply IHq|].
        apply list_elem_of_fmap in He as (l&->&Hl). right. simpl.
        destruct Hadm as [->|Hlt]; [by apply elem_of_nil in Hl|].
        destruct Hhead as [[= _ ->]|?]; lia.
      * intros e. rewrite Hc'. intros He.
        apply elem_of_app in He as [He|He]; [by apply IHc|].
        apply list_elem_of_singleton in He as ->. simpl.
        destruct Hhead as [[= _ ->]|?]; lia.
Qed.

(** Every page a finished crawl has scraped was found at a depth between
    [0] and [max_depth], and only the seed at depth [0]. *)
Theorem crawl_depth_within_bounds fuel start_url st url depth :
  crawl_run fuel start_url = Some (Ret st) ->
  (url, depth) ∈ crawled st ->
  0 <= depth <= max_depth /\ (depth = 0 -> url = start_url).
Proof.
  intros Hrun He. apply crawl_run_reachable in Hrun.
  pose proof (reachable_depths _ _ Hrun) as [Hq Hc].
  split; [apply (Hc _ He)|]. intros ->.
  eapply reachable_invariant_ex in Hrun as [base Hinv].
  destruct Hinv as [_ _ _ Hpop _ _ _].
  destruct (Hq (url, 0)) as [[= ->]|?]; [|done|simpl in *; lia].
  apply elem_of_app. left. by apply Hpop.
Qed.


Lemma reachable_results start_url st :
  reachable start_url st ->
  forall u, results st !! u
            = if bool_decide (u ∈ seen st) then Some (scraped u) else None.
Proof.
  induction 1 as [|parsed st st' Hp _ IH Hs]; intros u.
  - simpl. rewrite lookup_empty. by rewrite bool_decide_eq_false_2.
  - eapply step_spec in Hs as (url&depth&rest&_&_&Hcase).
    destruct Hcase as [(_&_&->&->&_)|(_&->&_&->&_)]; [apply IH|].
    destruct (decide (u = url)) as [->|Hne].
    + rewrite lookup_insert_eq. rewrite bool_decide_eq_true_2; [done|].
      apply elem_of_union. left. by apply elem_of_singleton.
    + rewrite lookup_insert_ne by done. rewrite IH.
      apply (f_equal (fun b : bool => if b then _ else _)).
      apply bool_decide_ext. rewrite elem_of_union, elem_of_singleton.
      intuition congruence.
Qed.

(** The dictionary a finished crawl returns has one entry for each URL it
    has scraped and no other, and the entry of a URL is what [scrape]
    returns for it, with the actions [actions_per_url] gives it. *)
Theorem crawl_results_are_the_scrapes fuel start_url st u :
  crawl_run fuel start_url = Some (Ret st) ->
  results st !! u
  = if bool_decide (u ∈ (crawled st).*1)
    then Some (scrape visit u output_formats (actions_for actions_per_url u))
    else None.
Proof.
  intros Hrun. apply crawl_run_reachable in Hrun.
  rewrite (reachable_results _ _ Hrun).
  eapply reachable_invariant_ex in Hrun as [base Hinv].
  destruct Hinv as [Hseen _ _ _ _ _ _].
  apply (f_equal (fun b : bool => if b then _ else _)).
  apply bool_decide_ext, Hseen.
Qed.



Lemma reachable_admitted start_url parsed st :
  urlparse start_url = Ret parsed ->
  reachable start_url st ->
  forall e, e ∈ popped st ++ queue st ->
    e = (start_url, 0)
    \/ exists p, urlparse e.1 = Ret p
         /\ startswith (scheme p) "http" = true
         /\ (follow_subdomains = false -> netloc p = netloc parsed).
Proof.
  intros Hp. induction 1 as [|parsed' st st' Hp' _ IH Hs]; intros e.
  - simpl. intros He. apply list_elem_of_singleton in He. by left.
  - rewrite Hp in Hp'. injection Hp' as <-.
    eapply step_spec in Hs as (url&depth&rest&Hq&Hpop&Hcase).
    destruct Hcase as [(_&Hq'&_)|(_&_&_&_&adm&Hq'&_&_&Hadm)].
    + rewrite Hpop, Hq', <-app_assoc. simpl. rewrite <-Hq. apply IH.
    + rewrite Hpop, Hq', <-app_assoc. simpl.
      change ((url, depth) :: rest ++ ?x) with (((url, depth) :: rest) ++ x).
      rewrite <-Hq, app_assoc. intros He.
      apply elem_of_app in He as [He|He]; [by apply IH|].
      apply list_elem_of_fmap in He as (l&->&Hl). right. simpl.
      rewrite Forall_forall in Hadm.
      destruct (Hadm l Hl) as (_&p&?&?&?). by exists p.
Qed.

(** Every page a finished crawl has scraped below the seed has a URL that
    parses, with a scheme that starts with [http] and, unless
    [follow_subdomains] is set, with the host of the seed. *)
Theorem crawl_scrapes_http_urls_of_the_seed_host fuel start_url st url depth :
  crawl_run fuel start_url = Some (Ret st) ->
  (url, depth) ∈ crawled st ->
  depth <> 0 ->
  exists parsed p,
    urlparse start_url = Ret parsed
    /\ urlparse url = Ret p
    /\ startswith (scheme p) "http" = true
    /\ (follow_subdomains = false -> netloc p = netloc parsed).
Proof.
  intros Hrun He Hd.
  destruct (urlparse start_url) as [parsed|msg] eqn:Hp.
  2:{ unfold Crawl.crawl_run in Hrun. by rewrite Hp in Hrun. }
  apply crawl_run_reachable in Hrun. exists parsed.
  destruct (reachable_invariant _ _ _ _ _ _ _ _ _ Hp Hrun)
    as [_ _ _ Hpop _ _ _].
  destruct (reachable_admitted _ _ _ Hp Hrun (url, depth))
    as [[= _ ->]|(p&?&?&?)]; [|done|by exists p].
  apply elem_of_app. left. by apply Hpop.
Qed.


Lemma offer_raises_on base_domain seen depth links queue link msg :
  link ∈ links -> urlparse link = Raise msg ->
  exists msg', offer base_domain seen depth links queue = Raise msg'.
Proof.
  intros Hl Hm. revert queue.
  induction links as [|link' links IH]; intros queue; simpl;
    [by apply elem_of_nil in Hl|].
  destruct (urlparse link') as [parsed|msg'] eqn:Hp; cbn; [|by eauto].
  apply elem_of_cons in Hl as [->|Hl]; [congruence|].
  destruct (negb (startswith (scheme parsed) "http")); [by apply IH|].
  destruct (negb follow_subdomains && _); [by apply IH|].
  destruct (bool_decide _); by apply IH.
Qed.


(** A link that [urlparse] refuses ends the crawl with an exception as soon
    as the page that holds it is scraped above [max_depth]: the loop is left
    and the results gathered so far are not returned. *)
Theorem link_that_does_not_parse_ends_the_crawl
    base_domain st url depth rest link msg :
  queue st = (url, depth) :: rest ->
  url ∉ seen st ->
  depth < max_depth ->
  link ∈ links_of own_browser url
           (scrape visit url output_formats (actions_for actions_per_url url)) ->
  urlparse link = Raise msg ->
  exists msg', forall fuel, loop (S fuel) base_domain st = Some (Raise msg').
Proof.
  intros Hq Hs Hd Hl Hm.
  destruct (offer_raises_on base_domain ({[url]} ∪ seen st) depth _ rest
              _ _ Hl Hm) as [msg' Ho].
  exists msg'. intros fuel. simpl. unfold Crawl.step. rewrite Hq.
  rewrite bool_decide_eq_false_2 by done.
  replace (max_depth <? depth) with false by (symmetry; apply Z.ltb_ge; lia).
  replace (depth <? max_depth) with true by (symmetry; apply Z.ltb_lt; lia).
  simpl. by rewrite Ho.
Qed.


Lemma add_format_other_key v format fs fs' k :
  add_format v format fs = Ret fs' ->
  k <> "screenshot" ->
  format <> k -> fs' !! k = fs !! k.
Proof.
  unfold add_format, _get_markdown, get_page_source. intros Hadd Hk Hne.
  repeat match type of Hadd with
  | (if String.eqb format ?s then _ else _) = _ =>
      destruct (String.eqb_spec format s) as [->|?]
  end;
  repeat match type of Hadd with
  | context [mbind _ ?m] => destruct m; cbn in Hadd; [|done]
  end;
  injection Hadd as <-; try done; by rewrite lookup_insert_ne.
Qed.

Lemma add_formats_other_key v fmts fs fs' k :
  add_formats v fmts fs = Ret fs' ->
  k <> "screenshot" ->
  k ∉ fmts -> fs' !! k = fs !! k.
Proof.
  intros Hadd Hk. revert fs Hadd.
  induction fmts as [|format rest IH]; intros fs; simpl.
  - by intros [= <-].
  - destruct (add_format v format fs) as [fs1|] eqn:H1; cbn; [|done].
    intros Hadd Hnot. apply not_elem_of_cons in Hnot as [? ?].
    rewrite (IH _ Hadd) by done. by eapply add_format_other_key.
Qed.

Lemma scrape_without_links visit' url actions :
  "links" ∉ output_formats ->
  formats (scrape visit' url output_formats actions) !! "links" = None.
Proof.
  intros Hnot. unfold scrape.
  destruct (match actions with Some (_ :: _) => _ | _ => _ end); cbn; [|done].
  destruct (add_formats _ _ _) as [fs|] eqn:Hadd; simpl; [|done].
  by rewrite (add_formats_other_key _ _ _ _ "links" Hadd).
Qed.

(** Unless ["links"] is among the output formats, the links a crawl follows
    are those of the crawler's own browser ([Map(base_url=url)]), not of the
    pages the scraper visits: two crawls that differ in what the scraper
    sees dequeue and scrape the same URLs in the same order, or end with
    the same exception. *)
Theorem crawl_without_links_format_ignores_the_scraped_pages
    visit' fuel start_url :
  "links" ∉ output_formats ->
  match crawl_run fuel start_url,
        Crawl.crawl_run visit' own_browser output_formats max_depth
          follow_subdomains actions_per_url fuel start_url with
  | Some (Ret st), Some (Ret st') =>
      crawled st = crawled st' /\ popped st = popped st'
      /\ dom (results st) = dom (results st')
  | Some (Raise msg), Some (Raise msg') => msg = msg'
  | None, None => True
  | _, _ => False
  end.
Proof.
  intros Hnot. unfold Crawl.crawl_run.
  destruct (urlparse start_url) as [parsed|msg]; [|done].
  assert (Hinit : queue (initial start_url) = queue (initial start_url)
                  /\ seen (initial start_url) = seen (initial start_url)
                  /\ crawled (initial start_url) = crawled (initial start_url)
                  /\ popped (initial start_url) = popped (initial start_url)
                  /\ dom (results (initial start_url))
                     = dom (results (initial start_url))) by done.
  revert Hinit. generalize (initial start_url) at 1 3 5 7 9 11.
  generalize (initial start_url).
  induction fuel as [|fuel IH]; intros st' st (Hq&Hs&Hc&Hp&Hr); [done|].
  simpl. unfold Crawl.step. rewrite Hq, Hs, Hc, Hp.
  destruct (queue st') as [|[url depth] rest]; [done|].
  destruct (_ || _).
  - apply IH. by simpl.
  - unfold links_of. rewrite !scrape_without_links by done.
    destruct (depth <? max_depth).
    + destruct (Crawl.offer _ _ _ _ _ _) as [q|msg]; cbn; [|done].
      apply IH. simpl. rewrite !dom_insert_L, Hr. done.
    + cbn. apply IH. simpl. rewrite !dom_insert_L, Hr. done.
Qed.


Lemma StronglySorted_sublist {A} (R : A -> A -> Prop) l1 l2 :
  l1 `sublist_of` l2 -> StronglySorted R l2 -> StronglySorted R l1.
Proof.
  induction 1 as [|x l1 l2 Hsub IH|x l1 l2 Hsub IH]; intros Hs; [done| |].
  - apply StronglySorted_inv in Hs as [Hs Hx]. constructor; [by apply IH|].
    rewrite Forall_forall in Hx |- *. intros y Hy. apply Hx.
    by eapply elem_of_sublist.
  - apply StronglySorted_inv in Hs as [Hs _]. by apply IH.
Qed.

Lemma reachable_crawled_sublist start_url st :
  reachable start_url st -> crawled st `sublist_of` popped st.
Proof.
  induction 1 as [|parsed st st' Hp _ IH Hs]; [done|].
  eapply step_spec in Hs as (url&depth&rest&_&->&Hcase).
  destruct Hcase as [(_&_&_&_&->)|(_&_&->&_)].
  - by apply sublist_inserts_r.
  - by apply sublist_app.
Qed.

(** A finished crawl has scraped no URL twice and has scraped the pages in
    order of depth: the seed, then all it scrapes at depth one, and so on. *)
Theorem crawl_scrapes_each_url_once_in_order_of_depth fuel start_url st :
  crawl_run fuel start_url = Some (Ret st) ->
  NoDup (crawled st).*1 /\ StronglySorted Z.le (crawled st).*2.
Proof.
  intros Hrun. apply crawl_run_reachable in Hrun.
  pose proof (reachable_crawled_sublist _ _ Hrun) as Hsub.
  eapply reachable_invariant_ex in Hrun as [base Hinv].
  destruct Hinv as [_ _ Hnd _ Hsort _ _]. split; [done|].
  rewrite fmap_app in Hsort.
  eapply StronglySorted_sublist; [|exact Hsort].
  apply sublist_inserts_r. by apply fmap_sublist.
Qed.



End CrawlResults.

(** ** The properties above at concrete inputs *)

Lemma Map_links_are_clean_and_filtered_witness :
  let l := "http://a.com/a" in
  l ∈ links (@Map permissive
               (Ret (page_of "http://a.com/" ["/b"; "/a#top"; "/b"] []))
               None false (Some "a"))
  /\ truthy l = true
  /\ contains "#" l = false
  /\ no_char tab_cr_lf l = true
  /\ (exists s rest, l = s +:+ "://" +:+ rest
        /\ all lower_scheme_char s = true)
  /\ (opt_truthy (Some "a") = true
      -> @re_search permissive (default "" (Some "a")) l = true).
Proof.
  intros l.
  assert (Hl : l ∈ links (@Map permissive
                            (Ret (page_of "http://a.com/"
                                    ["/b"; "/a#top"; "/b"] []))
                            None false (Some "a"))).
  { apply list_elem_of_In. vm_compute. tauto. }
  split; [exact Hl|].
  exact (@Map_links_are_clean_and_filtered permissive _ _ _ _ _ Hl).
Defined.

Lemma Map_with_assets_keeps_the_anchor_links_witness :
  links (@Map permissive (Ret gallery) None false None) = ["http://a.com/a"]
  /\ links (@Map permissive (Ret gallery) None true None)
     = ["http://a.com/a"; "http://a.com/i.png"]
  /\ "http://a.com/a" ∈ links (@Map permissive (Ret gallery) None true None).
Proof.
  split; [reflexivity|]. split; [reflexivity|].
  apply (@Map_with_assets_keeps_the_anchor_links permissive).
  - reflexivity.
  - apply list_elem_of_In. vm_compute. tauto.
Defined.

Lemma Map_loses_every_link_to_one_bad_attribute_witness :
  let page := page_of "http://a.com/" ["/ok"; "//[x"] [] in
  @normalize_url permissive None "http://a.com/" "//[x"
  = Raise "Invalid IPv6 URL"
  /\ status (@Map permissive (Ret page) None false None) = "error"
  /\ links (@Map permissive (Ret page) None false None) = []
  /\ is_Some (error (@Map permissive (Ret page) None false None)).
Proof.
  intros page. split; [reflexivity|].
  apply (@Map_loses_every_link_to_one_bad_attribute permissive page None false
           None "//[x" "Invalid IPv6 URL").
  - apply list_elem_of_In. vm_compute. tauto.
  - reflexivity.
Defined.

Lemma canonical_urls_are_fixed_points_witness :
  @normalize_url permissive (Some "http://b.org/") "http://a.com/"
    "http://A.COM/Path?Q=1"
  = Ret (Some "http://A.COM/Path?Q=1").
Proof.
  apply (@canonical_urls_are_fixed_points permissive (Some "http://b.org/")
           "http://a.com/" "http" "A.COM" "/Path" (Some "Q=1")).
  - by left.
  - reflexivity.
Defined.

Lemma markdown_shows_the_important_fields_only_witness :
  _json_to_markdown
    (doc_about {[ "title" := MStr "About us" ]})
  = _json_to_markdown
      (doc_about (<[ "author" := MStr "A. Writer" ]>
                    {[ "title" := MStr "About us" ]})).
Proof.
  apply markdown_shows_the_important_fields_only; try reflexivity.
  intros field Hin.
  repeat (apply elem_of_cons in Hin as [->|Hin]; [reflexivity|]).
  by apply elem_of_nil in Hin.
Defined.

Lemma metadata_defaults_witness :
  exists tags,
    @extract_meta_tags two_images "0f8fad5b" = Ret tags
    /\ (forall k v,
          occurrences k (metas (soup two_images)) = [] ->
          (k, v) ∈ [("scrapeId", MStr "0f8fad5b");
                    ("sourceURL", MStr (current_url two_images));
                    ("statusCode", MInt 200);
                    ("url", MStr (current_url two_images));
                    ("language", MStr (default "en-US" None));
                    ("og:type", MStr "website");
                    ("viewport", MStr "width=device-width, initial-scale=1")] ->
          tags !! k = Some v)
    /\ (occurrences "og:site_name" (metas (soup two_images)) = [] ->
        tags !! "og:site_name" = tags !! "title").
Proof.
  apply (@metadata_defaults two_images "0f8fad5b" None). reflexivity.
Defined.

Lemma title_and_favicon_come_from_the_page_first_witness :
  exists tags,
    @extract_meta_tags titled "0f8fad5b" = Ret tags
    /\ tags !! "title" = Some (MStr "Home")
    /\ tags !! "favicon" = Some (MStr "/i.ico").
Proof.
  apply (@title_and_favicon_come_from_the_page_first titled "0f8fad5b"
           (Some "de")).
  reflexivity.
Defined.

Lemma scrape_drops_every_format_when_one_fails_witness :
  exists msg,
    @scrape permissive (site two_hosts) "http://a.com/"
      ["markdown"; "screenshot"] None
    = {| result_url := "http://a.com/"; result_timestamp := None;
         result_error := Some msg; formats := ∅ |}.
Proof.
  apply (@scrape_drops_every_format_when_one_fails permissive (site two_hosts)
           "http://a.com/" ["markdown"; "screenshot"] None "screenshot").
  - apply list_elem_of_In. simpl. tauto.
  - intros fs. eexists. reflexivity.
Defined.

Lemma screenshot_formats_always_fail_witness :
  let r := @scrape permissive (snapping two_hosts) "http://a.com/"
             ["markdown"; "screenshot@fullPage"] None in
  is_Some (result_error r) /\ result_timestamp r = None /\ formats r = ∅.
Proof.
  apply (@screenshot_formats_always_fail permissive
           (Ret "Viewport screenshot saved to: screenshots/viewport/shot.png")
           (snapping two_hosts) "http://a.com/"
           ["markdown"; "screenshot@fullPage"] None "screenshot@fullPage").
  - intros full_page. reflexivity.
  - apply list_elem_of_In. simpl. tauto.
  - by right.
Defined.

Lemma saved_links_read_back_line_by_line_witness :
  exists text,
    Files.save_links working_disk "./screenshots" "20250101_000000"
      (fun _ => "{}")
      (links (@Map permissive
                (Ret (page_of "http://a.com/" ["/b"; "/a#top"; "/b"] []))
                None false None))
      (Some "found") "txt"
    = ([Files.Mkdir ["./screenshots"; "links"];
        Files.WriteText ["./screenshots"; "links"; "found.txt"] text],
       Files.SavedTo ["./screenshots"; "links"; "found.txt"])
    /\ (links (@Map permissive
                 (Ret (page_of "http://a.com/" ["/b"; "/a#top"; "/b"] []))
                 None false None) <> [] ->
        split (chr 10) text
        = links (@Map permissive
                   (Ret (page_of "http://a.com/" ["/b"; "/a#top"; "/b"] []))
                   None false None))
    /\ (links (@Map permissive
                 (Ret (page_of "http://a.com/" ["/b"; "/a#top"; "/b"] []))
                 None false None) = [] -> text = "").
Proof.
  apply (@saved_links_read_back_line_by_line permissive working_disk
           "./screenshots" "20250101_000000" (fun _ => "{}")
           (Ret (page_of "http://a.com/" ["/b"; "/a#top"; "/b"] []))
           None false None (Some "found") "txt").
  - discriminate.
  - reflexivity.
  - intros text. reflexivity.
Defined.

Lemma save_accepts_four_formats_witness :
  Files.save working_disk "./screenshots" "20250101_000000"
    "http://a.com/a" "links" None
  = ([Files.Mkdir ["./screenshots"; "links"]],
     Files.NotSaved "Error saving content: Unsupported format: links")
  /\ Files.save working_disk "./screenshots" "20250101_000000"
       "# **Hi**" "markdown" (Some "page")
     = ([Files.Mkdir ["./screenshots"; "markdown"];
         Files.WriteText ["./screenshots"; "markdown"; "page.md"] "# **Hi**"],
        Files.SavedTo ["./screenshots"; "markdown"; "page.md"]).
Proof.
  split.
  - apply (save_accepts_four_formats working_disk "./screenshots"
             "20250101_000000" "http://a.com/a" "links" None);
      intros; reflexivity.
  - apply (save_accepts_four_formats working_disk "./screenshots"
             "20250101_000000" "# **Hi**" "markdown" (Some "page"));
      intros; reflexivity.
Defined.


Lemma capture_full_page_fails_on_the_first_capture_witness :
  Screenshot.capture_full_page (fun _ => Raise "No such file or directory")
    (png_driver 300 1280 800)
  = ([Screenshot.ScrollTo 0 0; Screenshot.Sleep500ms;
      Screenshot.GetScreenshotAsPng],
     Raise "embedded null byte").
Proof.
  apply capture_full_page_fails_on_the_first_capture.
  - intros y. reflexivity.
  - reflexivity.
  - reflexivity.
  - simpl. lia.
Defined.


Lemma crawl_scrapes_each_url_once_in_order_of_depth_witness :
  exists st,
    @crawl_run permissive (site diamond) blank ["links"] 2 false None
      10 "http://a.com/" = Some (Ret st)
    /\ crawled st
       = [("http://a.com/", 0); ("http://a.com/p", 1); ("http://a.com/q", 1);
          ("http://a.com/r", 2)]
    /\ NoDup (crawled st).*1 /\ StronglySorted Z.le (crawled st).*2.
Proof.
  eexists. split; [vm_compute; reflexivity|]. split; [reflexivity|].
  apply (@crawl_scrapes_each_url_once_in_order_of_depth permissive
           (site diamond) blank ["links"] 2 false None 10 "http://a.com/").
  vm_compute. reflexivity.
Defined.

Lemma crawl_depth_within_bounds_witness :
  exists st,
    @crawl_run permissive (site diamond) blank ["links"] 2 false None
      10 "http://a.com/" = Some (Ret st)
    /\ ("http://a.com/r", 2) ∈ crawled st
    /\ 0 <= 2 <= 2
    /\ (2 = 0 -> "http://a.com/r" = "http://a.com/").
Proof.
  eexists. split; [vm_compute; reflexivity|].
  split; [apply list_elem_of_In; simpl; tauto|].
  eapply (@crawl_depth_within_bounds permissive (site diamond) blank ["links"]
            2 false None 10 "http://a.com/").
  - vm_compute. reflexivity.
  - apply list_elem_of_In. simpl. tauto.
Defined.

Lemma crawl_results_are_the_scrapes_witness :
  exists st,
    @crawl_run permissive (site diamond) blank ["links"] 2 false None
      10 "http://a.com/" = Some (Ret st)
    /\ results st !! "http://a.com/p"
       = Some (@scrape permissive (site diamond) "http://a.com/p" ["links"]
                 None)
    /\ results st !! "http://a.com/zzz" = None.
Proof.
  eexists. split; [vm_compute; reflexivity|]. split.
  - erewrite (@crawl_results_are_the_scrapes permissive (site diamond) blank
                ["links"] 2 false None 10 "http://a.com/");
      [|vm_compute; reflexivity].
    reflexivity.
  - erewrite (@crawl_results_are_the_scrapes permissive (site diamond) blank
                ["links"] 2 false None 10 "http://a.com/");
      [|vm_compute; reflexivity].
    reflexivity.
Defined.


Lemma crawl_scrapes_http_urls_of_the_seed_host_witness :
  exists st,
    @crawl_run permissive (site diamond) blank ["links"] 2 false None
      10 "http://a.com/" = Some (Ret st)
    /\ ("http://a.com/r", 2) ∈ crawled st
    /\ exists parsed p,
         @urlparse permissive "http://a.com/" = Ret parsed
         /\ @urlparse permissive "http://a.com/r" = Ret p
         /\ startswith (scheme p) "http" = true
         /\ (false = false -> netloc p = netloc parsed).
Proof.
  eexists. split; [vm_compute; reflexivity|].
  split; [apply list_elem_of_In; simpl; tauto|].
  eapply (@crawl_scrapes_http_urls_of_the_seed_host permissive (site diamond)
            blank ["links"] 2 false None 10 "http://a.com/").
  - vm_compute. reflexivity.
  - apply list_elem_of_In. simpl. tauto.
  - lia.
Defined.


Lemma link_that_does_not_parse_ends_the_crawl_witness :
  exists msg,
    forall fuel,
      @loop permissive (site bad_link) blank ["links"] 1 false None
        (S fuel) "a.com" (initial "http://a.com/")
      = Some (Raise msg).
Proof.
  apply (@link_that_does_not_parse_ends_the_crawl permissive (site bad_link)
           blank ["links"] 1 false None "a.com" (initial "http://a.com/")
           "http://a.com/" 0 [] "ftp://[x" "Invalid IPv6 URL").
  - reflexivity.
  - apply not_elem_of_empty.
  - lia.
  - apply list_elem_of_In. vm_compute. tauto.
  - reflexivity.
Defined.

Lemma crawl_without_links_format_ignores_the_scraped_pages_witness :
  match @crawl_run permissive (site diamond) blank ["markdown"] 2 false None
          10 "http://a.com/",
        @crawl_run permissive (site two_hosts) blank ["markdown"] 2 false None
          10 "http://a.com/" with
  | Some (Ret st), Some (Ret st') =>
      crawled st = crawled st' /\ popped st = popped st'
      /\ dom (results st) = dom (results st')
  | Some (Raise msg), Some (Raise msg') => msg = msg'
  | None, None => True
  | _, _ => False
  end.
Proof.
  apply (@crawl_without_links_format_ignores_the_scraped_pages permissive
           (site diamond) blank ["markdown"] 2 false None (site two_hosts)
           10 "http://a.com/").
  apply (bool_decide_unpack _). vm_compute. exact I.
Defined.

